(** * polars.io: the ingestion front-end of py-polars

    A shallow embedding of [py-polars/polars/io.py]: the source resolver
    [_prepare_file_arg], the rename helper [update_columns] and the eager
    readers [read_csv], [read_ipc] and [read_parquet], together with the
    properties of the option policy they implement.

    The decoding engines (the native readers of [DataFrame], pyarrow, fsspec,
    urllib) are collaborators: they are fields of an environment record and
    every call to one of them is recorded in a trace. The setter of
    [DataFrame.columns], which [update_columns] ends with, is a field of the
    environment too. *)

From Stdlib Require Import ZArith NArith String Ascii Decimal DecimalString
  DecimalPos DecimalZ Bool.
From stdpp Require Import base list strings.

Local Open Scope string_scope.
Local Open Scope list_scope.
Local Open Scope Z_scope.

(** ** Python builtins used by the module *)

Module Py.

(** A [str] is represented by its UTF-8 encoding and a [bytes] object by
    its bytes, so [s.encode("utf8")] is the identity on the representation
    (a [str] with a lone surrogate has no encoding and is not covered).
    A byte [10xxxxxx] continues the character begun before it. *)
Definition is_continuation (c : ascii) : bool :=
  let n := N_of_ascii c in ((128 <=? n) && (n <? 192))%N.

(** [len(s)] on a [str]: the number of characters. *)
Fixpoint len (s : string) : nat :=
  match s with
  | EmptyString => O
  | String c s' => if is_continuation c then len s' else S (len s')
  end.

(** [s[n:]] on a [str]: the characters from the [n]-th on. *)
Fixpoint str_drop (n : nat) (s : string) : string :=
  match s with
  | EmptyString => EmptyString
  | String c s' =>
      if is_continuation c then str_drop n s'
      else
        match n with
        | O => s
        | S n' => str_drop n' s'
        end
  end.

(** [s.startswith(p)]. *)
Definition startswith (s p : string) : bool := String.prefix p s.

(** [s.isascii()]. *)
Fixpoint isascii (s : string) : bool :=
  match s with
  | EmptyString => true
  | String c s' => (N_of_ascii c <? 128)%N && isascii s'
  end.

(** The value bits of the first byte of a character. *)
Definition lead_bits (n : N) : N :=
  if (n <? 128)%N then n
  else if (n <? 224)%N then (n - 192)%N
  else if (n <? 240)%N then (n - 224)%N
  else (n - 240)%N.

(** The code points of a [str]; [cur] is the character being read. *)
Fixpoint code_points_from (s : string) (cur : option N) : list N :=
  match s with
  | EmptyString => option_list cur
  | String c s' =>
      let n := N_of_ascii c in
      if is_continuation c then
        code_points_from s' (Some (default 0 cur * 64 + (n - 128)))%N
      else option_list cur ++ code_points_from s' (Some (lead_bits n))
  end.

Definition code_points (s : string) : list N := code_points_from s None.

(** The white space outside ASCII ([str.isspace], Unicode 14). *)
Definition is_unicode_space (cp : N) : bool :=
  ((cp =? 133) || (cp =? 160) || (cp =? 5760)
   || ((8192 <=? cp) && (cp <=? 8202))
   || (cp =? 8232) || (cp =? 8233) || (cp =? 8239) || (cp =? 8287)
   || (cp =? 12288))%N.

(** The digit zero of every script with decimal digits outside ASCII
    (general category [Nd], Unicode 14); the digits one to nine follow
    it. *)
Definition decimal_zeros : list N :=
  [
    1632; 1776; 1984; 2406; 2534; 2662; 2790; 2918; 3046; 3174; 3302; 3430;
    3558; 3664; 3792; 3872; 4160; 4240; 6112; 6160; 6470; 6608; 6784; 6800;
    6992; 7088; 7232; 7248; 42528; 43216; 43264; 43472; 43504; 43600;
    44016; 65296; 66720; 68912; 69734; 69872; 69942; 70096; 70384; 70736;
    70864; 71248; 71360; 71472; 71904; 72016; 72784; 73040; 73120; 92768;
    92864; 93008; 120782; 120792; 120802; 120812; 120822; 123200; 123632;
    125264; 130032
  ]%N.

(** The value of a decimal digit outside ASCII. *)
Definition to_decimal (cp : N) : option N :=
  (fun zero => cp - zero)%N
    <$> find (fun zero => (zero <=? cp) && (cp <? zero + 10))%N decimal_zeros.

(** What [int()] does to a [str] that is not ASCII before it reads it:
    white space becomes a blank, a decimal digit its ASCII digit, and the
    first character that is neither becomes [?] and ends the text. *)
Fixpoint to_ascii (cps : list N) : string :=
  match cps with
  | [] => EmptyString
  | cp :: rest =>
      if (cp <? 127)%N then String (ascii_of_N cp) (to_ascii rest)
      else if is_unicode_space cp then String " " (to_ascii rest)
      else
        match to_decimal cp with
        | Some d => String (ascii_of_N (48 + d)) (to_ascii rest)
        | None => "?"
        end
  end.

(** The blanks an integer literal may have around it: TAB, LF, VT, FF, CR
    and SPACE. *)
Definition is_space (c : ascii) : bool :=
  let n := N_of_ascii c in (((9 <=? n) && (n <=? 13)) || (n =? 32))%N.

Definition digit_of (c : ascii) : option N :=
  let n := N_of_ascii c in
  if ((48 <=? n) && (n <=? 57))%N then Some (n - 48)%N else None.

Fixpoint lstrip (s : string) : string :=
  match s with
  | String c s' => if is_space c then lstrip s' else s
  | EmptyString => EmptyString
  end.

Fixpoint rstrip (s : string) : string :=
  match s with
  | String c s' =>
      match rstrip s' with
      | EmptyString => if is_space c then EmptyString else String c EmptyString
      | r => String c r
      end
  | EmptyString => EmptyString
  end.

Definition strip (s : string) : string := rstrip (lstrip s).

(** The digits of an integer literal, most significant first. A single
    underscore may separate two digits; [prev] tells whether the previous
    character was a digit. *)
Fixpoint int_digits (s : string) (acc : N) (prev : bool) : option N :=
  match s with
  | EmptyString => if prev then Some acc else None
  | String c s' =>
      match digit_of c with
      | Some d => int_digits s' (acc * 10 + d)%N true
      | None =>
          if Ascii.eqb c "_" && prev then int_digits s' acc false else None
      end
  end.

(** An ASCII integer literal in base 10: blanks, a sign, digits, blanks. *)
Definition int_literal (s : string) : option Z :=
  match strip s with
  | String "+" r => Z.of_N <$> int_digits r 0 false
  | String "-" r => (fun n => - Z.of_N n) <$> int_digits r 0 false
  | r => Z.of_N <$> int_digits r 0 false
  end.

(** [int(s)] for a [str]; [None] is Python's [ValueError]. Integers are
    unbounded, and the limit that recent interpreters put on the number of
    digits is taken to be off ([sys.set_int_max_str_digits(0)]). *)
Definition int (s : string) : option Z :=
  int_literal (if isascii s then s else to_ascii (code_points s)).

(** [str(n)], also what [f"{n}"] inserts for an [int]. *)
Definition str (n : Z) : string := NilZero.string_of_int (Z.to_int n).

(** Truth value of an optional list ([None] and [[]] are falsy). *)
Definition truthy {A} (o : option (list A)) : bool :=
  match o with
  | Some (_ :: _) => true
  | _ => false
  end.

(** Truth value of an optional [int] ([None] and [0] are falsy). *)
Definition truthy_int (o : option Z) : bool :=
  match o with
  | Some n => negb (n =? 0)
  | None => false
  end.

Definition is_None {A} (o : option A) : bool :=
  match o with
  | None => true
  | Some _ => false
  end.

End Py.

(** A [dict] with [str] keys: an association list with distinct keys, in
    insertion order. *)
Module Dict.

Definition t (V : Type) := list (string * V).

Fixpoint get {V} (d : t V) (k : string) : option V :=
  match d with
  | [] => None
  | (k', v) :: d' => if String.eqb k' k then Some v else get d' k
  end.

(** [d.get(k, dflt)]. *)
Definition get_default {V} (d : t V) (k : string) (dflt : V) : V :=
  match get d k with
  | Some v => v
  | None => dflt
  end.

(** [k in d]. *)
Definition mem {V} (d : t V) (k : string) : bool :=
  match get d k with
  | Some _ => true
  | None => false
  end.

(** [d[k] = v]: an existing key keeps its position, a new one is appended. *)
Fixpoint set {V} (d : t V) (k : string) (v : V) : t V :=
  match d with
  | [] => [(k, v)]
  | (k', v') :: d' =>
      if String.eqb k' k then (k', v) :: d' else (k', v') :: set d' k v
  end.

(** [{k: v for k, v in items}]. *)
Definition of_items {V} (items : list (string * V)) : t V :=
  fold_left (fun d kv => set d (fst kv) (snd kv)) items [].

Definition keys {V} (d : t V) : list string := map fst d.

End Dict.

(** ** Data model *)

(** A dtype class of [polars.datatypes], identified by its name. *)
Definition DataType := string.

(** The [dtypes] argument: a dict keyed by column name or a positional
    list. *)
Inductive dtypes_arg :=
| DtDict (d : Dict.t DataType)
| DtList (l : list DataType).

(** The [null_values] argument. *)
Inductive null_values_arg :=
| NullStr (s : string)
| NullList (l : list string)
| NullDict (d : Dict.t string).

(** The [columns] argument of [read_ipc] and [read_parquet]. *)
Inductive column_selector :=
| ColIndices (l : list Z)
| ColNames (l : list string).

(** Keyword arguments forwarded to a collaborator ([storage_options],
    [**kwargs]). *)
Definition kwargs := list (string * string).

(** File-like objects live in a heap and are passed by reference. *)
Definition handle := nat.

Record stream := mkStream {
  s_content : string;
  (** in characters for a [StringIO], in bytes for a binary stream *)
  s_pos : nat;
  s_closed : bool
}.

Definition heap := list stream.

(** The input descriptor: what a caller may pass as [file] or [source]. *)
Inductive file_arg :=
| FStringIO (h : handle)
| FBytesIO (h : handle)
| FPath (p : string)
| FStr (s : string)
| FList (l : list string)
| FBytes (b : string)
| FStream (h : handle).

(** What a [with _prepare_file_arg(...) as data] block binds: one of the
    caller's descriptors, a buffer made by the resolver, or streams opened
    by fsspec. *)
Inductive source :=
| Src (f : file_arg)
| SrcOpenFile (uri : string) (kw : kwargs)
| SrcOpenFiles (uris : list string) (kw : kwargs).

(** A [pyarrow.Table], as far as this layer looks at it. *)
Record Table := mkTable {
  column_names : list string;
  tbl_data : N
}.

(** A [DataFrame], likewise: its column names and its contents. *)
Record DataFrame := mkDataFrame {
  columns : list string;
  df_data : N
}.

Definition width (df : DataFrame) : nat := length (columns df).

(** ** Exceptions *)

Inductive exn :=
| ValueError_no_data_in_bytes
| ValueError_column_prefix
| ImportError_pyarrow (fn : string)
| ValueError_more_new_than_selected
| ValueError_more_new_than_projected
| ValueError_n_rows_with_pyarrow
| ValueError_int (literal : string)
| ValueError_closed_file
| External (msg : string).

(** The error taxonomy of the specification. Exceptions of builtins and of
    collaborators propagate unchanged and have no class there. *)
Inductive error_kind :=
| InvalidInput
| InvalidOptionCombination
| MissingOptionalDependency.

Definition kind_of (e : exn) : option error_kind :=
  match e with
  | ValueError_no_data_in_bytes => Some InvalidInput
  | ValueError_column_prefix
  | ValueError_more_new_than_selected
  | ValueError_more_new_than_projected
  | ValueError_n_rows_with_pyarrow => Some InvalidOptionCombination
  | ImportError_pyarrow _ => Some MissingOptionalDependency
  | ValueError_int _ | ValueError_closed_file | External _ => None
  end.

Inductive result (A : Type) :=
| Ok (a : A)
| Raise (e : exn).
Arguments Ok {A} a.
Arguments Raise {A} e.

Definition rbind {A B} (r : result A) (k : A -> result B) : result B :=
  match r with
  | Ok a => k a
  | Raise e => Raise e
  end.

(** A list comprehension whose element expression may raise. *)
Fixpoint comprehension {A B} (f : A -> result B) (l : list A)
  : result (list B) :=
  match l with
  | [] => Ok []
  | x :: l' =>
      rbind (f x) (fun y => rbind (comprehension f l') (fun ys => Ok (y :: ys)))
  end.

(** ** The loop of [update_columns] *)

(** [enumerate(l)], counting from [i]. *)
Fixpoint enumerate_from {A} (i : nat) (l : list A) : list (nat * A) :=
  match l with
  | [] => []
  | x :: l' => (i, x) :: enumerate_from (S i) l'
  end.

Definition enumerate {A} (l : list A) : list (nat * A) := enumerate_from 0 l.

(** The loop [for i, name in enumerate(new_columns): cols[i] = name]. The
    assignment is in range on every iteration, because the loop only runs
    when [new_columns] is shorter than [cols]. *)
Definition assign_names (cols new_columns : list string) : list string :=
  fold_left (fun cols ix => <[fst ix := snd ix]> cols) (enumerate new_columns)
    cols.

(** ** Arguments of the readers and of the collaborators *)

Module Csv.

(** The parameters of [read_csv]. The catch-all [**kwargs] is only
    consulted for the key ["dtypes"], which Python always binds to the
    parameter of that name, so [kwargs.get("dtypes", dtypes)] is [dtypes]. *)
Record args := mk {
  file : file_arg;
  infer_schema_length : option Z;
  batch_size : Z;
  has_header : bool;
  ignore_errors : bool;
  n_rows : option Z;
  skip_rows : Z;
  projection : option (list Z);
  sep : string;
  columns : option (list string);
  rechunk : bool;
  encoding : string;
  n_threads : option Z;
  dtypes : option dtypes_arg;
  new_columns : option (list string);
  use_pyarrow : bool;
  low_memory : bool;
  comment_char : option string;
  quote_char : option string;
  storage_options : option kwargs;
  null_values : option null_values_arg;
  parse_dates : bool
}.

(** The keyword arguments of the call to [DataFrame.read_csv]. *)
Record native := mkNative {
  nat_file : source;
  nat_infer_schema_length : option Z;
  nat_batch_size : Z;
  nat_has_header : bool;
  nat_ignore_errors : bool;
  nat_n_rows : option Z;
  nat_skip_rows : Z;
  nat_projection : option (list Z);
  nat_sep : string;
  nat_columns : option (list string);
  nat_rechunk : bool;
  nat_encoding : string;
  nat_n_threads : option Z;
  nat_dtypes : option dtypes_arg;
  nat_low_memory : bool;
  nat_comment_char : option string;
  nat_quote_char : option string;
  nat_null_values : option null_values_arg;
  nat_parse_dates : bool
}.

(** The arguments of the call to [pa.csv.read_csv]: the data, the
    [ReadOptions], the [ParseOptions] and the [ConvertOptions]. *)
Record pyarrow := mkPyarrow {
  pa_data : source;
  pa_skip_rows : Z;
  pa_autogenerate_column_names : bool;
  pa_delimiter : string;
  pa_column_types : option (Dict.t DataType);
  pa_include_columns : option (list string);
  pa_include_missing_columns : bool
}.

End Csv.

Module Columnar.

(** The parameters of [read_ipc] and of [read_parquet] (whose first one is
    called [source] and which also takes [**kwargs] for pyarrow). *)
Record args := mk {
  file : file_arg;
  columns : option column_selector;
  projection : option (list Z);
  n_rows : option Z;
  use_pyarrow : bool;
  memory_map : bool;
  storage_options : option kwargs;
  extra : kwargs
}.

(** [pa.feather.read_table(data, memory_map=, columns=)] and
    [pa.parquet.read_table(source, memory_map=, columns=, **kwargs)]. *)
Record pyarrow := mkPyarrow {
  pa_data : source;
  pa_memory_map : bool;
  pa_columns : option column_selector;
  pa_kwargs : kwargs
}.

(** [DataFrame.read_ipc(data, columns=, projection=, n_rows=)] and
    [DataFrame.read_parquet] with the same arguments. *)
Record native := mkNative {
  nat_data : source;
  nat_columns : option column_selector;
  nat_projection : option (list Z);
  nat_n_rows : option Z
}.

End Columnar.

(** Truth value of an optional column selector. *)
Definition truthy_selector (o : option column_selector) : bool :=
  match o with
  | Some (ColIndices (_ :: _)) | Some (ColNames (_ :: _)) => true
  | _ => false
  end.

(** ** The collaborators and the trace of calls to them *)

Inductive event :=
| Call_prepare_file_arg (file : file_arg) (kw : kwargs)
| Call_urlopen (path : string)
| Call_fsspec_open (uri : string) (kw : kwargs)
| Call_fsspec_open_files (uris : list string) (kw : kwargs)
| Call_pa_csv_read_csv (a : Csv.pyarrow)
| Call_DataFrame_read_csv (a : Csv.native)
| Call_pa_feather_read_table (a : Columnar.pyarrow)
| Call_DataFrame_read_ipc (a : Columnar.native)
| Call_pa_parquet_read_table (a : Columnar.pyarrow)
| Call_DataFrame_read_parquet (a : Columnar.native).

(** A collaborator may consume the streams it is given, and it returns or
    fails with an exception of its own, which this layer lets through. *)
Inductive answer (A : Type) :=
| Returns (a : A)
| Fails (msg : string).
Arguments Returns {A} a.
Arguments Fails {A} msg.

Definition collaborator (A : Type) := heap -> heap * answer A.

(** What a call that returned or failed is for its caller. *)
Definition of_answer {A} (r : answer A) : result A :=
  match r with
  | Returns a => Ok a
  | Fails msg => Raise (External msg)
  end.

Record Env := mkEnv {
  _PYARROW_AVAILABLE : bool;
  _WITH_FSSPEC : bool;
  (** [infer_storage_options(path)["protocol"]] *)
  storage_protocol : string -> string;
  (** [urlopen(path)] followed by [f.read()] *)
  urlopen_read : string -> collaborator string;
  fsspec_open : string -> kwargs -> collaborator unit;
  fsspec_open_files : list string -> kwargs -> collaborator unit;
  pa_csv_read_csv : Csv.pyarrow -> collaborator Table;
  from_arrow : Table -> bool -> DataFrame;
  DataFrame_from_arrow : Table -> DataFrame;
  DataFrame_read_csv : Csv.native -> collaborator DataFrame;
  pa_feather_read_table : Columnar.pyarrow -> collaborator Table;
  DataFrame_read_ipc : Columnar.native -> collaborator DataFrame;
  pa_parquet_read_table : Columnar.pyarrow -> collaborator Table;
  DataFrame_read_parquet : Columnar.native -> collaborator DataFrame;
  (** [df.columns = names]: the setter of [DataFrame.columns] is defined in
      [polars.internals], not in this module; it returns the table under
      its new names or fails with an exception of its own *)
  DataFrame_set_columns : DataFrame -> list string -> answer DataFrame
}.

(** ** The monad of the readers: a heap, a trace, and exceptions *)

Record world := mkWorld {
  w_heap : heap;
  w_trace : list event
}.

Definition M (A : Type) := world -> world * result A.

Definition ret {A} (a : A) : M A := fun w => (w, Ok a).

Definition raise {A} (e : exn) : M A := fun w => (w, Raise e).

Definition bind {A B} (m : M A) (k : A -> M B) : M B :=
  fun w =>
    match m w with
    | (w', Ok a) => k a w'
    | (w', Raise e) => (w', Raise e)
    end.

Definition lift {A} (r : result A) : M A := fun w => (w, r).

(** Record an event of this layer. *)
Definition emit (ev : event) : M unit :=
  fun w => ({| w_heap := w_heap w; w_trace := w_trace w ++ [ev] |}, Ok tt).

(** Call a collaborator: the call is recorded, then it runs on the heap. *)
Definition call {A} (ev : event) (c : collaborator A) : M A :=
  fun w =>
    let (h, r) := c (w_heap w) in
    ({| w_heap := h; w_trace := w_trace w ++ [ev] |}, of_answer r).

Declare Scope io_scope.
Delimit Scope io_scope with io.
Notation "x <- m ;; k" := (bind m (fun x => k))
  (at level 100, m at next level, right associativity) : io_scope.
Notation "m ;;; k" := (bind m (fun _ => k))
  (at level 100, right associativity) : io_scope.
Local Open Scope io_scope.

(** ** File-like objects *)

(** [f.read()] on a [StringIO], whose position counts characters: the
    text from the current position to the end; the position moves to the
    end, and stays where it is when it is already past the end. A closed
    stream (or a handle that does not denote one) raises. *)
Definition StringIO_read (h : handle) : M string :=
  fun w =>
    match w_heap w !! h with
    | Some s =>
        if s_closed s then (w, Raise ValueError_closed_file)
        else
          let text := Py.str_drop (s_pos s) (s_content s) in
          let s' := {| s_content := s_content s;
                       s_pos := Nat.max (s_pos s) (Py.len (s_content s));
                       s_closed := false |} in
          ({| w_heap := <[h := s']> (w_heap w); w_trace := w_trace w |},
           Ok text)
    | None => (w, Raise ValueError_closed_file)
    end.

(** [BytesIO(b)]: a new buffer, at a fresh handle. *)
Definition BytesIO_new (b : string) : M handle :=
  fun w =>
    ({| w_heap := w_heap w ++ [mkStream b 0 false]; w_trace := w_trace w |},
     Ok (length (w_heap w))).

(** [f.close()]. *)
Definition close (h : handle) : M unit :=
  fun w =>
    ({| w_heap :=
          alter (fun s => mkStream (s_content s) (s_pos s) true) h (w_heap w);
        w_trace := w_trace w |},
     Ok tt).

(** The objects [_prepare_file_arg] returns, each usable in a [with]
    statement: the helper [managed_file] around a value, a [BytesIO] (which
    is its own context manager), or what [fsspec.open] and
    [fsspec.open_files] return. *)
Inductive context :=
| managed_file (f : file_arg)
| BytesIO_itself (h : handle)
| OpenFile (uri : string) (kw : kwargs)
| OpenFiles (uris : list string) (kw : kwargs).

(** [__enter__]: [managed_file] yields its value; a [BytesIO] checks that it
    is not closed and returns itself. *)
Definition enter (c : context) : M source :=
  match c with
  | managed_file f => ret (Src f)
  | BytesIO_itself h =>
      fun w =>
        match w_heap w !! h with
        | Some s =>
            if s_closed s then (w, Raise ValueError_closed_file)
            else (w, Ok (Src (FBytesIO h)))
        | None => (w, Raise ValueError_closed_file)
        end
  | OpenFile uri kw => ret (SrcOpenFile uri kw)
  | OpenFiles uris kw => ret (SrcOpenFiles uris kw)
  end.

(** [__exit__]: the [finally: pass] of [managed_file] does nothing; a
    [BytesIO] closes itself; fsspec closes the streams it opened, which are
    not objects of the caller. *)
Definition exit (c : context) : M unit :=
  match c with
  | managed_file _ => ret tt
  | BytesIO_itself h => close h
  | OpenFile _ _ | OpenFiles _ _ => ret tt
  end.

(** [with c as data: body]. The exit runs on every path out of the body
    and lets an exception of the body propagate. *)
Definition with_ {A} (c : context) (body : source -> M A) : M A :=
  fun w =>
    match enter c w with
    | (w1, Raise e) => (w1, Raise e)
    | (w1, Ok data) =>
        let (w2, r) := body data w1 in
        (fst (exit c w2), r)
    end.

Section Readers.

Variable env : Env.

(** ** The source resolver *)

Definition _process_http_file (path : string) : M handle :=
  b <- call (Call_urlopen path) (urlopen_read env path) ;;
  BytesIO_new b.

Definition _prepare_file_arg (file : file_arg) (kw : kwargs) : M context :=
  emit (Call_prepare_file_arg file kw) ;;;
  match file with
  | FStringIO h =>
      (* BytesIO(file.read().encode("utf8")): a str is held as its UTF-8
         bytes, so the encoding leaves the representation as it is *)
      text <- StringIO_read h ;;
      h' <- BytesIO_new text ;;
      ret (BytesIO_itself h')
  | FBytesIO h => ret (BytesIO_itself h)
  | FPath p => ret (managed_file (FStr p))
  | FStr s =>
      if _WITH_FSSPEC env then
        if String.eqb (storage_protocol env s) "file"
        then ret (managed_file file)
        else
          call (Call_fsspec_open s kw) (fsspec_open env s kw) ;;;
          ret (OpenFile s kw)
      else if Py.startswith s "http" then
        h' <- _process_http_file s ;;
        ret (BytesIO_itself h')
      else ret (managed_file file)
  | FList l =>
      (* [bool(file)]; every element is a [str] by the type of [FList] *)
      if match l with [] => false | _ => true end then
        if _WITH_FSSPEC env then
          if forallb (fun f => String.eqb (storage_protocol env f) "file") l
          then ret (managed_file file)
          else
            call (Call_fsspec_open_files l kw) (fsspec_open_files env l kw) ;;;
            ret (OpenFiles l kw)
        else ret (managed_file file)
      else ret (managed_file file)
  | FBytes _ | FStream _ => ret (managed_file file)
  end.

(** [with _prepare_file_arg(file, **storage_options) as data: body]. *)
Definition with_file {A} (file : file_arg) (kw : kwargs)
  (body : source -> M A) : M A :=
  c <- _prepare_file_arg file kw ;;
  with_ c body.

(** ** [read_csv] *)

(** [isinstance(file, bytes) and len(file) == 0]. *)
Definition is_empty_bytes (file : file_arg) : bool :=
  match file with
  | FBytes b => (String.length b =? 0)%nat
  | _ => false
  end.

(** The loop over [columns] when [columns and not has_header]. *)
Definition check_synthetic_names (a : Csv.args) : result unit :=
  if Py.truthy (Csv.columns a) && negb (Csv.has_header a) then
    if forallb (fun column => Py.startswith column "column_")
         (default [] (Csv.columns a))
    then Ok tt
    else Raise ValueError_column_prefix
  else Ok tt.

(** The condition under which [read_csv] reads with pyarrow. *)
Definition pyarrow_eligible (a : Csv.args) : bool :=
  Csv.use_pyarrow a
  && Py.is_None (Csv.dtypes a)
  && Py.is_None (Csv.n_rows a)
  && Py.is_None (Csv.n_threads a)
  && String.eqb (Csv.encoding a) "utf8"
  && negb (Csv.low_memory a)
  && Py.is_None (Csv.null_values a)
  && Csv.parse_dates a.

(** [f"f{int(column[7:]) - 1}"]. *)
Definition to_pyarrow_name (column : string) : result string :=
  match Py.int (Py.str_drop 7 column) with
  | Some k => Ok ("f" +:+ Py.str (k - 1))
  | None => Raise (ValueError_int (Py.str_drop 7 column))
  end.

(** [f"column_{int(column[1:]) + 1}"]. *)
Definition of_pyarrow_name (column : string) : result string :=
  match Py.int (Py.str_drop 1 column) with
  | Some j => Ok ("column_" +:+ Py.str (j + 1))
  | None => Raise (ValueError_int (Py.str_drop 1 column))
  end.

(** The [include_columns] handed to pyarrow. *)
Definition include_columns (a : Csv.args) : result (option (list string)) :=
  rbind
    (if Py.truthy (Csv.columns a) then
       if negb (Csv.has_header a)
       then rbind (comprehension to_pyarrow_name (default [] (Csv.columns a)))
              (fun l => Ok (Some l))
       else Ok (Csv.columns a)
     else Ok None)
    (fun include_columns =>
       if negb (Py.truthy (Csv.columns a)) && Py.truthy (Csv.projection a)
       then Ok (Some (map (fun column_idx => "f" +:+ Py.str column_idx)
                        (default [] (Csv.projection a))))
       else Ok include_columns).

(** [tbl.rename_columns(names)]; pyarrow refuses a list of another length. *)
Definition rename_columns (tbl : Table) (names : list string) : result Table :=
  if (length names =? length (column_names tbl))%nat
  then Ok {| column_names := names; tbl_data := tbl_data tbl |}
  else Raise (External "rename_columns").

(** [range(lo, hi)]. *)
Definition range (lo hi : nat) : list Z := map Z.of_nat (seq lo (hi - lo)).

(** The names of a header-less file, as the native reader generates them:
    [[f"column_{column_idx}" for column_idx in range(1, n + 1)]]. *)
Definition synthetic_names (n : nat) : list string :=
  map (fun column_idx => "column_" +:+ Py.str column_idx) (range 1 (n + 1)).

(** The names pyarrow generates for a header-less file of [n] columns
    ([autogenerate_column_names=True]): [f0], [f1], ... *)
Definition pyarrow_names (n : nat) : list string :=
  map (fun j => "f" +:+ Py.str j) (range 0 n).

(** [{new_column: current_column for new_column, current_column in
    zip(new_columns, current_columns)}]. *)
Definition new_to_current (new_columns current_columns : list string)
  : Dict.t string :=
  Dict.of_items (zip new_columns current_columns).

(** [{new_to_current.get(column_name, column_name): column_dtype for
    column_name, column_dtype in dtypes.items()}]. *)
Definition rekey (new_to_current : Dict.t string) (dtypes : Dict.t DataType)
  : Dict.t DataType :=
  Dict.of_items
    (map (fun kv => (Dict.get_default new_to_current (fst kv) (fst kv), snd kv))
       dtypes).

(** The block guarded by [if new_columns and dtypes and isinstance(dtypes,
    dict)]: the dtype overrides are keyed by the new names, which the parser
    does not know yet, so they are renamed to the current names where those
    are known. The result is the [dtypes] handed to the native reader. *)
Definition reconcile_dtypes (a : Csv.args) : result (option dtypes_arg) :=
  match Csv.dtypes a with
  | Some (DtDict ((_ :: _) as d)) =>
      if Py.truthy (Csv.new_columns a) then
        let new_columns := default [] (Csv.new_columns a) in
        let columns := default [] (Csv.columns a) in
        let projection := default [] (Csv.projection a) in
        rbind
          (if Py.truthy (Csv.columns a) then
             if (length columns <? length new_columns)%nat
             then Raise ValueError_more_new_than_selected
             else Ok (Some (take (length new_columns) columns), DtDict d)
           else if negb (Csv.has_header a) then
             if Py.truthy (Csv.projection a) then
               if Py.truthy (Csv.columns a)
                  && (length columns <? length new_columns)%nat
               then Raise ValueError_more_new_than_projected
               else
                 Ok (Some (map (fun column_idx =>
                                  "column_" +:+ Py.str (column_idx + 1))
                             projection),
                     DtDict d)
             else
               Ok (Some (synthetic_names (length new_columns)), DtDict d)
           else if (length d <=? length new_columns)%nat then
             (* [dtypes[n] for n in new_columns[0:len(dtypes)] if n in dtypes] *)
             let dtype_list := omap (Dict.get d) (take (length d) new_columns) in
             if (length dtype_list =? length d)%nat
             then Ok (None, DtList dtype_list)
             else Ok (None, DtDict d)
           else Ok (None, DtDict d))
          (fun '(current_columns, dtypes) =>
             match dtypes with
             | DtDict d =>
                 if Py.truthy current_columns then
                   Ok (Some (DtDict
                     (rekey (new_to_current new_columns
                               (default [] current_columns)) d)))
                 else Ok (Some dtypes)
             | DtList _ => Ok (Some dtypes)
             end)
      else Ok (Csv.dtypes a)
  | _ => Ok (Csv.dtypes a)
  end.

Definition native_csv_args (a : Csv.args) (data : source)
  (dtypes : option dtypes_arg) : Csv.native :=
  {| Csv.nat_file := data;
     Csv.nat_infer_schema_length := Csv.infer_schema_length a;
     Csv.nat_batch_size := Csv.batch_size a;
     Csv.nat_has_header := Csv.has_header a;
     Csv.nat_ignore_errors := Csv.ignore_errors a;
     Csv.nat_n_rows := Csv.n_rows a;
     Csv.nat_skip_rows := Csv.skip_rows a;
     Csv.nat_projection := Csv.projection a;
     Csv.nat_sep := Csv.sep a;
     Csv.nat_columns := Csv.columns a;
     Csv.nat_rechunk := Csv.rechunk a;
     Csv.nat_encoding := Csv.encoding a;
     Csv.nat_n_threads := Csv.n_threads a;
     Csv.nat_dtypes := dtypes;
     Csv.nat_low_memory := Csv.low_memory a;
     Csv.nat_comment_char := Csv.comment_char a;
     Csv.nat_quote_char := Csv.quote_char a;
     Csv.nat_null_values := Csv.null_values a;
     Csv.nat_parse_dates := Csv.parse_dates a |}.

Definition pyarrow_csv_args (a : Csv.args) (data : source)
  (include_columns : option (list string)) : Csv.pyarrow :=
  {| Csv.pa_data := data;
     Csv.pa_skip_rows := Csv.skip_rows a;
     Csv.pa_autogenerate_column_names := negb (Csv.has_header a);
     Csv.pa_delimiter := Csv.sep a;
     Csv.pa_column_types := None;
     Csv.pa_include_columns := include_columns;
     Csv.pa_include_missing_columns := Csv.ignore_errors a |}.

(** [update_columns]: a rename list shorter than the table is wide is
    completed with the names of the remaining columns; the list is then
    assigned to [df.columns]. *)
Definition update_columns (df : DataFrame) (new_columns : list string)
  : result DataFrame :=
  let new_columns :=
    if (length new_columns <? width df)%nat
    then assign_names (columns df) new_columns
    else new_columns in
  of_answer (DataFrame_set_columns env df new_columns).

(** [return update_columns(df, new_columns)] when [new_columns] is truthy,
    [return df] otherwise. *)
Definition renamed (a : Csv.args) (df : DataFrame) : result DataFrame :=
  if Py.truthy (Csv.new_columns a)
  then update_columns df (default [] (Csv.new_columns a))
  else Ok df.

(** The branch of [read_csv] that reads with pyarrow. *)
Definition read_csv_pyarrow (a : Csv.args) (storage_options : kwargs)
  : M DataFrame :=
  include_columns <- lift (include_columns a) ;;
  tbl <- with_file (Csv.file a) storage_options (fun data =>
           let pa := pyarrow_csv_args a data include_columns in
           call (Call_pa_csv_read_csv pa) (pa_csv_read_csv env pa)) ;;
  tbl <- (if negb (Csv.has_header a) then
            names <- lift (comprehension of_pyarrow_name (column_names tbl)) ;;
            lift (rename_columns tbl names)
          else ret tbl) ;;
  lift (renamed a (from_arrow env tbl (Csv.rechunk a))).

(** The rest of [read_csv]: the native reader. *)
Definition read_csv_native (a : Csv.args) (storage_options : kwargs)
  : M DataFrame :=
  dtypes <- lift (reconcile_dtypes a) ;;
  df <- with_file (Csv.file a) storage_options (fun data =>
          let na := native_csv_args a data dtypes in
          call (Call_DataFrame_read_csv na) (DataFrame_read_csv env na)) ;;
  lift (renamed a df).

Definition read_csv (a : Csv.args) : M DataFrame :=
  if is_empty_bytes (Csv.file a) then raise ValueError_no_data_in_bytes
  else
    let storage_options := default [] (Csv.storage_options a) in
    lift (check_synthetic_names a) ;;;
    if Csv.use_pyarrow a && negb (_PYARROW_AVAILABLE env)
    then raise (ImportError_pyarrow "read_csv")
    else if pyarrow_eligible a
    then read_csv_pyarrow a storage_options
    else read_csv_native a storage_options.

(** ** [read_ipc] and [read_parquet] *)

(** [columns if columns else projection]. *)
Definition pyarrow_columns (a : Columnar.args) : option column_selector :=
  if truthy_selector (Columnar.columns a) then Columnar.columns a
  else ColIndices <$> Columnar.projection a.

Definition pyarrow_columnar_args (a : Columnar.args) (data : source)
  (kw : kwargs) : Columnar.pyarrow :=
  {| Columnar.pa_data := data;
     Columnar.pa_memory_map := Columnar.memory_map a;
     Columnar.pa_columns := pyarrow_columns a;
     Columnar.pa_kwargs := kw |}.

(** The arguments of the native reader; [projection] is unset when column
    names (or indices) were given in [columns]. *)
Definition native_columnar_args (a : Columnar.args) (data : source)
  : Columnar.native :=
  {| Columnar.nat_data := data;
     Columnar.nat_columns := Columnar.columns a;
     Columnar.nat_projection :=
       if truthy_selector (Columnar.columns a) then None
       else Columnar.projection a;
     Columnar.nat_n_rows := Columnar.n_rows a |}.

Definition read_ipc (a : Columnar.args) : M DataFrame :=
  if Columnar.use_pyarrow a && Py.truthy_int (Columnar.n_rows a)
  then raise ValueError_n_rows_with_pyarrow
  else
    let storage_options := default [] (Columnar.storage_options a) in
    with_file (Columnar.file a) storage_options (fun data =>
      if Columnar.use_pyarrow a then
        if negb (_PYARROW_AVAILABLE env)
        then raise (ImportError_pyarrow "read_ipc")
        else
          let pa := pyarrow_columnar_args a data [] in
          tbl <- call (Call_pa_feather_read_table pa)
                   (pa_feather_read_table env pa) ;;
          ret (DataFrame_from_arrow env tbl)
      else
        let na := native_columnar_args a data in
        call (Call_DataFrame_read_ipc na) (DataFrame_read_ipc env na)).

Definition read_parquet (a : Columnar.args) : M DataFrame :=
  if Columnar.use_pyarrow a && Py.truthy_int (Columnar.n_rows a)
  then raise ValueError_n_rows_with_pyarrow
  else
    let storage_options := default [] (Columnar.storage_options a) in
    with_file (Columnar.file a) storage_options (fun source_prep =>
      if Columnar.use_pyarrow a then
        if negb (_PYARROW_AVAILABLE env)
        then raise (ImportError_pyarrow "read_parquet")
        else
          let pa := pyarrow_columnar_args a source_prep (Columnar.extra a) in
          tbl <- call (Call_pa_parquet_read_table pa)
                   (pa_parquet_read_table env pa) ;;
          ret (from_arrow env tbl true)
      else
        let na := native_columnar_args a source_prep in
        call (Call_DataFrame_read_parquet na) (DataFrame_read_parquet env na)).

End Readers.

(** The value of a string of decimal digits read from the left. *)
Fixpoint uint_value (d : uint) (acc : N) : N :=
  match d with
  | Nil => acc
  | D0 d' => uint_value d' (acc * 10)%N
  | D1 d' => uint_value d' (acc * 10 + 1)%N
  | D2 d' => uint_value d' (acc * 10 + 2)%N
  | D3 d' => uint_value d' (acc * 10 + 3)%N
  | D4 d' => uint_value d' (acc * 10 + 4)%N
  | D5 d' => uint_value d' (acc * 10 + 5)%N
  | D6 d' => uint_value d' (acc * 10 + 6)%N
  | D7 d' => uint_value d' (acc * 10 + 7)%N
  | D8 d' => uint_value d' (acc * 10 + 8)%N
  | D9 d' => uint_value d' (acc * 10 + 9)%N
  end.

(** The value a key has after the items of a dict display or
    comprehension are inserted one by one: that of its last occurrence. *)
Fixpoint lookup_last {V} (items : list (string * V)) (k : string) : option V :=
  match items with
  | [] => None
  | (k', v) :: rest =>
      match lookup_last rest k with
      | Some v' => Some v'
      | None => if String.eqb k' k then Some v else None
      end
  end.

(** ** A sample environment

    A small world to run the readers in: pyarrow is installed, fsspec is
    not, and every reader sees the same three-column file with the header
    [a,b,c]. *)

Definition sample_header : list string := ["a"; "b"; "c"].

(** pyarrow names the columns by the header or, for a header-less file, by
    position; a non-empty [include_columns] selects columns in that order. *)
Definition sample_pa_csv (pa : Csv.pyarrow) : Table :=
  let all :=
    if Csv.pa_autogenerate_column_names pa then pyarrow_names 3
    else sample_header in
  {| column_names :=
       match Csv.pa_include_columns pa with
       | Some (c :: l) => c :: l
       | _ => all
       end;
     tbl_data := 7 |}.

(** The native reader names the columns by the header or synthetically; a
    non-empty [columns] selects columns. *)
Definition sample_native_csv (na : Csv.native) : DataFrame :=
  let all :=
    if Csv.nat_has_header na then sample_header else synthetic_names 3 in
  {| columns :=
       match Csv.nat_columns na with
       | Some (c :: l) => c :: l
       | _ => all
       end;
     df_data := 7 |}.

(** Whether no name occurs twice in a list. *)
Fixpoint distinct (names : list string) : bool :=
  match names with
  | [] => true
  | name :: rest => negb (existsb (String.eqb name) rest) && distinct rest
  end.

(** The setter of the sample environment takes one name per column, all
    distinct, and refuses every other list, as the setter of polars
    does. *)
Definition sample_set_columns (df : DataFrame) (names : list string)
  : answer DataFrame :=
  if negb (length names =? width df)%nat then Fails "ShapeError"
  else if negb (distinct names) then Fails "DuplicateError"
  else Returns {| columns := names; df_data := df_data df |}.

Definition sample_env : Env :=
  {| _PYARROW_AVAILABLE := true;
     _WITH_FSSPEC := false;
     storage_protocol := fun _ => "file";
     urlopen_read := fun _ h => (h, Fails "urlopen");
     fsspec_open := fun _ _ h => (h, Returns tt);
     fsspec_open_files := fun _ _ h => (h, Returns tt);
     pa_csv_read_csv := fun pa h => (h, Returns (sample_pa_csv pa));
     from_arrow := fun tbl _ => mkDataFrame (column_names tbl) (tbl_data tbl);
     DataFrame_from_arrow :=
       fun tbl => mkDataFrame (column_names tbl) (tbl_data tbl);
     DataFrame_read_csv := fun na h => (h, Returns (sample_native_csv na));
     pa_feather_read_table := fun _ h => (h, Returns (mkTable sample_header 7));
     DataFrame_read_ipc := fun _ h => (h, Returns (mkDataFrame sample_header 7));
     pa_parquet_read_table := fun _ h => (h, Returns (mkTable sample_header 7));
     DataFrame_read_parquet :=
       fun _ h => (h, Returns (mkDataFrame sample_header 7));
     DataFrame_set_columns := sample_set_columns |}.

(** A call of [read_csv] that sets the options below and leaves the other
    parameters at their defaults. *)
Definition csv_call (file : file_arg) (has_header : bool)
  (projection : option (list Z)) (columns : option (list string))
  (dtypes : option dtypes_arg) (new_columns : option (list string))
  (use_pyarrow : bool) (n_rows : option Z) (parse_dates : bool) : Csv.args :=
  {| Csv.file := file;
     Csv.infer_schema_length := Some 100;
     Csv.batch_size := 8192;
     Csv.has_header := has_header;
     Csv.ignore_errors := false;
     Csv.n_rows := n_rows;
     Csv.skip_rows := 0;
     Csv.projection := projection;
     Csv.sep := ",";
     Csv.columns := columns;
     Csv.rechunk := true;
     Csv.encoding := "utf8";
     Csv.n_threads := None;
     Csv.dtypes := dtypes;
     Csv.new_columns := new_columns;
     Csv.use_pyarrow := use_pyarrow;
     Csv.low_memory := false;
     Csv.comment_char := None;
     Csv.quote_char := Some (String (ascii_of_nat 34) EmptyString);
     Csv.storage_options := None;
     Csv.null_values := None;
     Csv.parse_dates := parse_dates |}.

(** [read_csv(file)]: every option at its default. *)
Definition csv_defaults (file : file_arg) : Csv.args :=
  csv_call file true None None None None false None false.

(** One of the options the pyarrow reader of [read_csv] does not support is
    set, or date parsing is off. *)
Definition forces_native (a : Csv.args) : bool :=
  negb (Py.is_None (Csv.dtypes a))
  || negb (Py.is_None (Csv.n_rows a))
  || negb (Py.is_None (Csv.n_threads a))
  || negb (String.eqb (Csv.encoding a) "utf8")
  || Csv.low_memory a
  || negb (Py.is_None (Csv.null_values a))
  || negb (Csv.parse_dates a).

(** The exceptions of the checks of [read_csv] that do not look at
    [use_pyarrow]. *)
Definition validation_exn (e : exn) : Prop :=
  match e with
  | ValueError_no_data_in_bytes | ValueError_column_prefix
  | ValueError_more_new_than_selected
  | ValueError_more_new_than_projected => True
  | _ => False
  end.

(** The arguments of [read_ipc] and [read_parquet] with their defaults,
    except [use_pyarrow] and [n_rows]. *)
Definition columnar_args (file : file_arg) (use_pyarrow : bool)
  (n_rows : option Z) : Columnar.args :=
  {| Columnar.file := file;
     Columnar.columns := None;
     Columnar.projection := None;
     Columnar.n_rows := n_rows;
     Columnar.use_pyarrow := use_pyarrow;
     Columnar.memory_map := true;
     Columnar.storage_options := None;
     Columnar.extra := [] |}.

(** The same call with another [n_rows]. *)
Definition with_n_rows (n_rows : option Z) (a : Columnar.args)
  : Columnar.args :=
  {| Columnar.file := Columnar.file a;
     Columnar.columns := Columnar.columns a;
     Columnar.projection := Columnar.projection a;
     Columnar.n_rows := n_rows;
     Columnar.use_pyarrow := Columnar.use_pyarrow a;
     Columnar.memory_map := Columnar.memory_map a;
     Columnar.storage_options := Columnar.storage_options a;
     Columnar.extra := Columnar.extra a |}.

(** An empty world, and one holding an open [BytesIO] at handle [0]. *)
Definition empty_world : world := {| w_heap := []; w_trace := [] |}.

Definition buffer_world : world :=
  {| w_heap := [mkStream "a,b,c" 0 false]; w_trace := [] |}.

(** ** Specifications of a run

    [extends Pev w w']: the trace of [w'] is that of [w] followed by events
    that satisfy [Pev]. [sat Pev Pex m]: running [m] only appends such
    events, and an exception it ends with satisfies [Pex]. *)

Definition extends (Pev : event -> Prop) (w w' : world) : Prop :=
  exists evs, w_trace w' = w_trace w ++ evs /\ Forall Pev evs.

Definition sat (Pev : event -> Prop) (Pex : exn -> Prop) {A} (m : M A) : Prop :=
  forall w,
    extends Pev w (fst (m w)) /\ forall e, snd (m w) = Raise e -> Pex e.

(** The events of the source resolver. *)
Definition resolver_event (ev : event) : Prop :=
  match ev with
  | Call_prepare_file_arg _ _ | Call_urlopen _
  | Call_fsspec_open _ _ | Call_fsspec_open_files _ _ => True
  | _ => False
  end.

(** What the source resolver may raise: a closed text buffer, or whatever
    urllib and fsspec raise. *)
Definition resolver_exn (e : exn) : Prop :=
  match e with
  | ValueError_closed_file | External _ => True
  | _ => False
  end.

(** What [read_csv] may raise once the names of a header-less selection
    have passed their check. *)
Definition past_prefix_check (e : exn) : Prop := e <> ValueError_column_prefix.

(** The descriptors the resolver hands on as they are, through
    [managed_file]: an open stream, a [bytes] object, and a local path or a
    list of local paths (a [Path] is handed on as its string). *)
Inductive passed_through (env : Env) : file_arg -> file_arg -> Prop :=
| pass_stream h : passed_through env (FStream h) (FStream h)
| pass_bytes b : passed_through env (FBytes b) (FBytes b)
| pass_path p : passed_through env (FPath p) (FStr p)
| pass_local_str s :
    _WITH_FSSPEC env = true ->
    storage_protocol env s = "file" ->
    passed_through env (FStr s) (FStr s)
| pass_plain_str s :
    _WITH_FSSPEC env = false ->
    Py.startswith s "http" = false ->
    passed_through env (FStr s) (FStr s)
| pass_local_list l :
    _WITH_FSSPEC env = true ->
    forallb (fun f => String.eqb (storage_protocol env f) "file") l = true ->
    passed_through env (FList l) (FList l)
| pass_plain_list l :
    _WITH_FSSPEC env = false ->
    passed_through env (FList l) (FList l).

(** ** Tactics *)

Ltac eval_digit :=
  match goal with
  | |- context [Py.digit_of ?c] =>
      let v := eval vm_compute in (Py.digit_of c) in
      change (Py.digit_of c) with v
  end.

(** Case analysis on the innermost scrutinee of the goal. *)
Ltac case_inner :=
  match goal with
  | |- context [match ?x with _ => _ end] =>
      lazymatch x with
      | context [match _ with _ => _ end] => fail
      | _ => destruct x eqn:?
      end
  end.

(** ** Item assignment with its bounds check *)

(** [l[i] = x] for an index [i >= 0]: Python raises [IndexError] ([None]
    here) when [i] is not below [len(l)]. *)
Definition setitem {A} (l : list A) (i : nat) (x : A) : option (list A) :=
  if (i <? length l)%nat then Some (<[i := x]> l) else None.

(** The loop of [update_columns] with the bounds check of every
    assignment made explicit. *)
Definition assign_names_checked (cols new_columns : list string)
  : option (list string) :=
  fold_left
    (fun acc ix =>
       match acc with
       | Some cols => setitem cols (fst ix) (snd ix)
       | None => None
       end)
    (enumerate new_columns) (Some cols).

(** ** Calls that differ in one option *)

Definition with_projection (projection : option (list Z)) (a : Columnar.args)
  : Columnar.args :=
  {| Columnar.file := Columnar.file a;
     Columnar.columns := Columnar.columns a;
     Columnar.projection := projection;
     Columnar.n_rows := Columnar.n_rows a;
     Columnar.use_pyarrow := Columnar.use_pyarrow a;
     Columnar.memory_map := Columnar.memory_map a;
     Columnar.storage_options := Columnar.storage_options a;
     Columnar.extra := Columnar.extra a |}.

Definition with_memory_map (memory_map : bool) (extra : kwargs)
  (a : Columnar.args) : Columnar.args :=
  {| Columnar.file := Columnar.file a;
     Columnar.columns := Columnar.columns a;
     Columnar.projection := Columnar.projection a;
     Columnar.n_rows := Columnar.n_rows a;
     Columnar.use_pyarrow := Columnar.use_pyarrow a;
     Columnar.memory_map := memory_map;
     Columnar.storage_options := Columnar.storage_options a;
     Columnar.extra := extra |}.

(** ** More sample environments *)

(** The sample readers in an environment with or without pyarrow and
    fsspec, where a path is remote when it starts with [s3://] and every
    URL answers with the bytes [x,y]. *)
Definition sample_env_with (pyarrow fsspec : bool) : Env :=
  {| _PYARROW_AVAILABLE := pyarrow;
     _WITH_FSSPEC := fsspec;
     storage_protocol :=
       fun path => if Py.startswith path "s3://" then "s3" else "file";
     urlopen_read := fun _ h => (h, Returns "x,y");
     fsspec_open := fsspec_open sample_env;
     fsspec_open_files := fsspec_open_files sample_env;
     pa_csv_read_csv := pa_csv_read_csv sample_env;
     from_arrow := from_arrow sample_env;
     DataFrame_from_arrow := DataFrame_from_arrow sample_env;
     DataFrame_read_csv := DataFrame_read_csv sample_env;
     pa_feather_read_table := pa_feather_read_table sample_env;
     DataFrame_read_ipc := DataFrame_read_ipc sample_env;
     pa_parquet_read_table := pa_parquet_read_table sample_env;
     DataFrame_read_parquet := DataFrame_read_parquet sample_env;
     DataFrame_set_columns := DataFrame_set_columns sample_env |}.

(** A world holding an open [StringIO] at handle [0], read up to its
    third character, and a closed buffer at handle [1]. *)
Definition text_world : world :=
  {| w_heap := [mkStream "a,b,c" 2 false; mkStream "a,b,c" 0 true];
     w_trace := [] |}.

(** An exception of a collaborator or of the resolver: none of the error
    classes of [kind_of]. *)
Definition unclassified (e : exn) : Prop := kind_of e = None.

(** * Properties *)

(** ** Integers and their decimal literals *)

Example int_plain : Py.int "12" = Some 12.
Proof. reflexivity. Qed.

Example int_signed_blank_underscore : Py.int " -1_0 " = Some (-10).
Proof. reflexivity. Qed.

Example int_empty : Py.int EmptyString = None.
Proof. reflexivity. Qed.

Example int_letters : Py.int "x" = None.
Proof. reflexivity. Qed.

Example int_double_underscore : Py.int "1__0" = None.
Proof. reflexivity. Qed.

Example int_unit_separator :
  Py.int (String (ascii_of_nat 31) "5") = None.
Proof. reflexivity. Qed.

Example int_arabic_indic_digits : Py.int " ١٢" = Some 12.
Proof. reflexivity. Qed.

Example int_no_break_space :
  Py.int (String (ascii_of_nat 194) (String (ascii_of_nat 160) "5")) = Some 5.
Proof. reflexivity. Qed.

Example str_drop_characters : Py.str_drop 2 "aébc" = "bc".
Proof. reflexivity. Qed.

Example len_characters : Py.len "aébc" = 4%nat.
Proof. reflexivity. Qed.

(** U+1D7D9, a mathematical digit one, in its four bytes. *)
Example int_four_bytes :
  Py.int (String (ascii_of_nat 240) (String (ascii_of_nat 157)
           (String (ascii_of_nat 159) (String (ascii_of_nat 153) "0"))))
  = Some 10.
Proof. reflexivity. Qed.

Example str_negative : Py.str (-42) = "-42".
Proof. reflexivity. Qed.

Section Literals.

Lemma int_digits_uint (d : uint) (acc : N) :
  Py.int_digits (NilEmpty.string_of_uint d) acc true = Some (uint_value d acc).
Proof.
  revert acc; induction d; intros acc; cbn [NilEmpty.string_of_uint];
    try reflexivity;
    cbn [Py.int_digits];
    match goal with
    | |- context [Py.digit_of ?c] =>
        let v := eval vm_compute in (Py.digit_of c) in
        change (Py.digit_of c) with v
    end;
    cbv iota beta; rewrite IHd; cbn [uint_value]; do 2 f_equal; lia.
Qed.

Lemma uint_value_pos (d : uint) (p : positive) :
  uint_value d (Npos p) = Npos (Pos.of_uint_acc d p).
Proof.
  revert p; induction d; intros p; cbn [uint_value Pos.of_uint_acc];
    try reflexivity.
  all: match goal with
       | |- uint_value _ ?n = N.pos (Pos.of_uint_acc _ ?q) =>
           replace n with (Npos q) by lia
       end; apply IHd.
Qed.

Lemma uint_value_0 (d : uint) : uint_value d 0 = Pos.of_uint d.
Proof.
  induction d; cbn [uint_value Pos.of_uint]; try reflexivity.
  - exact IHd.
  - apply (uint_value_pos d 1).
  - apply (uint_value_pos d 2).
  - apply (uint_value_pos d 3).
  - apply (uint_value_pos d 4).
  - apply (uint_value_pos d 5).
  - apply (uint_value_pos d 6).
  - apply (uint_value_pos d 7).
  - apply (uint_value_pos d 8).
  - apply (uint_value_pos d 9).
Qed.

Lemma int_digits_first (d : uint) :
  d <> Nil ->
  Py.int_digits (NilEmpty.string_of_uint d) 0 false = Some (Pos.of_uint d).
Proof.
  intros Hd; rewrite <- uint_value_0.
  destruct d; [congruence | ..];
    cbn [NilEmpty.string_of_uint Py.int_digits]; eval_digit; cbv iota beta;
    rewrite int_digits_uint; reflexivity.
Qed.

Lemma lstrip_digits (d : uint) :
  Py.lstrip (NilEmpty.string_of_uint d) = NilEmpty.string_of_uint d.
Proof. destruct d; reflexivity. Qed.

Lemma rstrip_digits (d : uint) :
  Py.rstrip (NilEmpty.string_of_uint d) = NilEmpty.string_of_uint d.
Proof.
  induction d; cbn [NilEmpty.string_of_uint Py.rstrip]; try reflexivity;
    rewrite IHd; destruct (NilEmpty.string_of_uint d); reflexivity.
Qed.

Lemma int_of_digits (d : uint) :
  d <> Nil ->
  Py.int_literal (NilEmpty.string_of_uint d) = Some (Z.of_N (Pos.of_uint d)).
Proof.
  intros Hd. unfold Py.int_literal, Py.strip.
  rewrite lstrip_digits, rstrip_digits.
  transitivity (Z.of_N <$> Py.int_digits (NilEmpty.string_of_uint d) 0 false).
  - destruct d; reflexivity.
  - rewrite (int_digits_first d Hd). reflexivity.
Qed.

Lemma int_of_minus_digits (d : uint) :
  d <> Nil ->
  Py.int_literal (String "-" (NilEmpty.string_of_uint d))
  = Some (- Z.of_N (Pos.of_uint d)).
Proof.
  intros Hd. unfold Py.int_literal, Py.strip.
  change (Py.lstrip (String "-" (NilEmpty.string_of_uint d)))
    with (String "-" (NilEmpty.string_of_uint d)).
  cbn [Py.rstrip]. rewrite rstrip_digits.
  destruct (NilEmpty.string_of_uint d) eqn:E.
  - destruct d; discriminate || congruence.
  - rewrite <- E. cbv iota beta. rewrite (int_digits_first d Hd). reflexivity.
Qed.

Lemma string_of_uint_nonnil (d : uint) :
  d <> Nil -> NilZero.string_of_uint d = NilEmpty.string_of_uint d.
Proof. destruct d; congruence || reflexivity. Qed.

Lemma isascii_digits (d : uint) :
  Py.isascii (NilEmpty.string_of_uint d) = true.
Proof.
  induction d; cbn [NilEmpty.string_of_uint Py.isascii];
    [reflexivity | rewrite IHd; reflexivity ..].
Qed.

(** A printed integer is ASCII. *)
Lemma isascii_str (z : Z) : Py.isascii (Py.str z) = true.
Proof.
  destruct z as [|p|p]; [reflexivity | ..]; unfold Py.str;
    cbn [Z.to_int NilZero.string_of_int];
    pose proof (Unsigned.to_uint_nonnil p) as Hp;
    rewrite (string_of_uint_nonnil _ Hp);
    cbn [Py.isascii]; rewrite isascii_digits; reflexivity.
Qed.

(** An ASCII [str] is read as it is. *)
Lemma int_isascii (s : string) :
  Py.isascii s = true -> Py.int s = Py.int_literal s.
Proof. unfold Py.int. intros ->. reflexivity. Qed.

(** An ASCII [str] begins with a character, so [s[0:]] is [s] itself
    in the representation. *)
Lemma str_drop_isascii (s : string) :
  Py.isascii s = true -> Py.str_drop 0 s = s.
Proof.
  destruct s as [|c s]; [reflexivity |]. cbn [Py.isascii Py.str_drop].
  intros H. apply andb_prop in H as [H _].
  unfold Py.is_continuation.
  apply N.ltb_lt in H.
  destruct (N.leb_spec 128 (N_of_ascii c)) as [Hge|_]; [lia | reflexivity].
Qed.

(** Reading back a printed integer gives the integer. *)
Lemma int_str (z : Z) : Py.int (Py.str z) = Some z.
Proof.
  rewrite int_isascii by apply isascii_str.
  destruct z as [|p|p]; [reflexivity | ..]; unfold Py.str;
    cbn [Z.to_int NilZero.string_of_int];
    pose proof (Unsigned.to_uint_nonnil p) as Hp;
    rewrite (string_of_uint_nonnil _ Hp).
  - rewrite (int_of_digits _ Hp), Unsigned.of_to. reflexivity.
  - rewrite (int_of_minus_digits _ Hp), Unsigned.of_to. reflexivity.
Qed.

End Literals.

(** ** Renaming columns after the read *)

Section Rename.

Implicit Types (cols new_columns pre : list string) (df : DataFrame).

Lemma assign_names_from new_columns : forall pre cols,
  (length new_columns <= length cols)%nat ->
  fold_left (fun cols ix => <[fst ix := snd ix]> cols)
    (enumerate_from (length pre) new_columns) (pre ++ cols)
  = pre ++ new_columns ++ drop (length new_columns) cols.
Proof.
  induction new_columns as [|name rest IH]; intros pre cols Hlen.
  - reflexivity.
  - destruct cols as [|c cols]; [cbn in Hlen; lia |].
    cbn [enumerate_from fold_left fst snd].
    rewrite insert_app_r_alt, Nat.sub_diag by lia.
    change (<[0%nat:=name]> (c :: cols)) with (name :: cols).
    specialize (IH (pre ++ [name]) cols).
    rewrite length_app, Nat.add_1_r in IH.
    rewrite <- !app_assoc in IH. cbn [app] in IH.
    cbn in Hlen. rewrite IH by lia. reflexivity.
Qed.

Lemma assign_names_shorter cols new_columns :
  (length new_columns <= length cols)%nat ->
  assign_names cols new_columns
  = new_columns ++ drop (length new_columns) cols.
Proof. intros H. exact (assign_names_from new_columns [] cols H). Qed.

(** C2, amended: [update_columns] on a table of width [W] with a rename
    list [L]. If [L] is shorter than [W], the list assigned to
    [df.columns] has [W] names: those of [L], followed by the names the
    columns at the positions from [length L] on had. If [L] has at least
    [W] entries, [L] is assigned as it is: nothing is truncated here.
    In both cases the result is the table the setter returns, or the
    exception it raises. *)
Theorem update_columns_rename (env : Env) df new_columns :
  ((length new_columns < width df)%nat ->
   let names := new_columns ++ drop (length new_columns) (columns df) in
   update_columns env df new_columns
   = of_answer (DataFrame_set_columns env df names)
   /\ length names = width df
   /\ (forall i, (i < length new_columns)%nat ->
         names !! i = new_columns !! i)
   /\ (forall i, (length new_columns <= i)%nat ->
         names !! i = columns df !! i))
  /\ ((width df <= length new_columns)%nat ->
      update_columns env df new_columns
      = of_answer (DataFrame_set_columns env df new_columns)).
Proof.
  unfold update_columns, width. split.
  - intros Hlt. cbv zeta.
    apply Nat.ltb_lt in Hlt as Hb. rewrite Hb.
    rewrite assign_names_shorter by lia.
    split; [reflexivity |]. split; [| split].
    + rewrite length_app, length_drop. lia.
    + intros i Hi. apply lookup_app_l. exact Hi.
    + intros i Hi. rewrite lookup_app_r, lookup_drop by lia. f_equal. lia.
  - intros Hge. apply Nat.ltb_ge in Hge. rewrite Hge. reflexivity.
Qed.

Lemma update_columns_rename_witness :
  update_columns sample_env (mkDataFrame ["a"; "b"; "c"] 7) ["x"]
  = Ok (mkDataFrame ["x"; "b"; "c"] 7)
  /\ update_columns sample_env (mkDataFrame ["a"; "b"] 7) ["x"; "y"]
     = Ok (mkDataFrame ["x"; "y"] 7).
Proof.
  split.
  - exact (proj1 (proj1
      (update_columns_rename sample_env (mkDataFrame ["a"; "b"; "c"] 7) ["x"])
      ltac:(cbn; lia))).
  - exact (proj2
      (update_columns_rename sample_env (mkDataFrame ["a"; "b"] 7) ["x"; "y"])
      ltac:(cbn; lia)).
Defined.

(** C2 as stated fails for a rename list longer than the table is wide:
    [update_columns] hands the setter all three names for the two columns
    below, whatever the setter is, and the setter of the sample
    environment, like that of polars, refuses them: no table with the
    names [x] and [y] comes back. *)
Lemma update_columns_rename_longer_list :
  let df := mkDataFrame ["a"; "b"] 7 in
  (forall env, update_columns env df ["x"; "y"; "z"]
               = of_answer (DataFrame_set_columns env df ["x"; "y"; "z"]))
  /\ update_columns sample_env df ["x"; "y"; "z"]
     = Raise (External "ShapeError")
  /\ update_columns sample_env df ["x"; "y"; "z"]
     <> Ok (mkDataFrame ["x"; "y"] 7).
Proof. cbv zeta. split; [reflexivity |]. split; [reflexivity | discriminate]. Qed.

End Rename.

(** ** What a run may record and raise *)

Section Invariants.

Variable Pev : event -> Prop.
Variable Pex : exn -> Prop.

Lemma extends_refl w : extends Pev w w.
Proof. exists []. rewrite app_nil_r. auto. Qed.

Lemma extends_trans w1 w2 w3 : extends Pev w1 w2 -> extends Pev w2 w3 -> extends Pev w1 w3.
Proof.
  intros (e1 & H1 & F1) (e2 & H2 & F2). exists (e1 ++ e2).
  rewrite H2, H1, app_assoc. split; [reflexivity | apply Forall_app; auto].
Qed.

Lemma extends_same_trace w w' : w_trace w' = w_trace w -> extends Pev w w'.
Proof. intros H. exists []. rewrite app_nil_r. auto. Qed.

Lemma sat_ret {A} (a : A) : sat Pev Pex (ret a).
Proof. intros w; split; [apply extends_refl | discriminate]. Qed.

Lemma sat_raise {A} e : Pex e -> sat Pev Pex (@raise A e).
Proof.
  intros He w; split; [apply extends_refl |].
  intros e' [= <-]. exact He.
Qed.

Lemma sat_lift {A} (r : result A) :
  (forall e, r = Raise e -> Pex e) -> sat Pev Pex (lift r).
Proof. intros H w; split; [apply extends_refl | exact H]. Qed.

Lemma sat_emit ev : Pev ev -> sat Pev Pex (emit ev).
Proof.
  intros H w; split; [| discriminate].
  exists [ev]. split; [reflexivity | repeat constructor; exact H].
Qed.

Lemma sat_call {A} ev (c : collaborator A) :
  Pev ev -> (forall msg, Pex (External msg)) -> sat Pev Pex (call ev c).
Proof.
  intros Hev Hex w. unfold call. destruct (c (w_heap w)) as [h r]. split.
  - exists [ev]. split; [reflexivity | repeat constructor; exact Hev].
  - cbn. destruct r; intros e [= <-]. apply Hex.
Qed.

Lemma sat_bind {A B} (m : M A) (k : A -> M B) :
  sat Pev Pex m -> (forall a, sat Pev Pex (k a)) -> sat Pev Pex (bind m k).
Proof.
  intros Hm Hk w. unfold bind. destruct (Hm w) as [Hext Hex].
  destruct (m w) as [w1 [a|e]]; cbn in *.
  - destruct (Hk a w1) as [Hext' Hex']. split; [| exact Hex'].
    eapply extends_trans; eassumption.
  - split; [exact Hext |]. intros e' [= <-]. apply Hex. reflexivity.
Qed.

Lemma sat_StringIO_read h : Pex ValueError_closed_file -> sat Pev Pex (StringIO_read h).
Proof.
  intros Hc w. unfold StringIO_read.
  destruct (w_heap w !! h) as [s|]; [destruct (s_closed s) |]; cbn;
    (split; [apply extends_same_trace; reflexivity |]);
    first [discriminate | intros e [= <-]; exact Hc].
Qed.

Lemma sat_BytesIO_new b : sat Pev Pex (BytesIO_new b).
Proof.
  intros w; split; [apply extends_same_trace; reflexivity | discriminate].
Qed.

Lemma sat_close h : sat Pev Pex (close h).
Proof.
  intros w; split; [apply extends_same_trace; reflexivity | discriminate].
Qed.

Lemma sat_enter c : Pex ValueError_closed_file -> sat Pev Pex (enter c).
Proof.
  intros Hc. destruct c; try apply sat_ret.
  intros w. cbn. destruct (w_heap w !! h) as [s|]; [destruct (s_closed s) |];
    cbn; (split; [apply extends_refl |]);
    first [discriminate | intros e [= <-]; exact Hc].
Qed.

Lemma sat_exit c : sat Pev Pex (exit c).
Proof. destruct c; first [apply sat_close | apply sat_ret]. Qed.

Lemma sat_with {A} c (body : source -> M A) :
  Pex ValueError_closed_file -> (forall data, sat Pev Pex (body data)) ->
  sat Pev Pex (with_ c body).
Proof.
  intros Hc Hbody w. unfold with_.
  destruct (sat_enter c Hc w) as [He Hx].
  destruct (enter c w) as [w1 [data|e]]; cbn in *;
    [| split; [exact He | intros e' [= <-]; apply Hx; reflexivity]].
  destruct (Hbody data w1) as [Hb Hbx].
  destruct (body data w1) as [w2 r]; cbn in *.
  split; [| exact Hbx].
  eapply extends_trans; [exact He |].
  eapply extends_trans; [exact Hb |]. apply (sat_exit c w2).
Qed.

End Invariants.

Section ResolverInvariants.

Variable env : Env.
Variable Pev : event -> Prop.
Variable Pex : exn -> Prop.
Hypothesis Hev : forall ev, resolver_event ev -> Pev ev.
Hypothesis Hex : forall e, resolver_exn e -> Pex e.

Lemma sat_prepare_file_arg file kw : sat Pev Pex (_prepare_file_arg env file kw).
Proof.
  assert (Pex ValueError_closed_file) as Hc by (apply Hex; exact I).
  assert (forall msg, Pex (External msg)) as Hx by (intros; apply Hex; exact I).
  unfold _prepare_file_arg, _process_http_file.
  apply sat_bind; [apply sat_emit, Hev; exact I | intros _].
  destruct file;
    repeat first
      [ apply sat_ret
      | apply sat_BytesIO_new
      | apply sat_StringIO_read; exact Hc
      | apply sat_call; [apply Hev; exact I | exact Hx]
      | apply sat_bind; [| intros ?]
      | match goal with |- sat _ _ (if ?b then _ else _) => destruct b end ].
Qed.

Lemma sat_with_file {A} file kw (body : source -> M A) :
  (forall data, sat Pev Pex (body data)) ->
  sat Pev Pex (with_file env file kw body).
Proof.
  intros Hbody. unfold with_file.
  apply sat_bind; [apply sat_prepare_file_arg | intros c].
  apply sat_with; [apply Hex; exact I | exact Hbody].
Qed.

End ResolverInvariants.

(** ** [read_csv]: the checks before the read *)

Section CsvChecks.

Variable env : Env.

(** Past its three checks, [read_csv] is one of its two strategies. *)
Lemma read_csv_past_checks (a : Csv.args) :
  is_empty_bytes (Csv.file a) = false ->
  check_synthetic_names a = Ok tt ->
  Csv.use_pyarrow a && negb (_PYARROW_AVAILABLE env) = false ->
  read_csv env a
  = if pyarrow_eligible a
    then read_csv_pyarrow env a (default [] (Csv.storage_options a))
    else read_csv_native env a (default [] (Csv.storage_options a)).
Proof.
  intros H1 H2 H3. unfold read_csv. rewrite H1, H2, H3. reflexivity.
Qed.

(** C5: an empty [bytes] input makes [read_csv] fail with the
    [InvalidInput] error, in the world it was called in: nothing was
    resolved and no reader was called. *)
Theorem read_csv_empty_bytes (a : Csv.args) (w : world) :
  Csv.file a = FBytes EmptyString ->
  read_csv env a w = (w, Raise ValueError_no_data_in_bytes)
  /\ kind_of ValueError_no_data_in_bytes = Some InvalidInput.
Proof.
  intros Hfile. unfold read_csv. rewrite Hfile. split; reflexivity.
Qed.

Lemma check_synthetic_names_spec (a : Csv.args) (cols : list string) :
  Csv.has_header a = false ->
  Csv.columns a = Some cols ->
  cols <> [] ->
  check_synthetic_names a
  = if forallb (fun column => Py.startswith column "column_") cols
    then Ok tt else Raise ValueError_column_prefix.
Proof.
  intros Hh Hc Hne. unfold check_synthetic_names. rewrite Hh, Hc.
  destruct cols; [congruence | reflexivity].
Qed.

Lemma reconcile_dtypes_raises (a : Csv.args) (e : exn) :
  reconcile_dtypes a = Raise e ->
  e = ValueError_more_new_than_selected
  \/ e = ValueError_more_new_than_projected.
Proof.
  unfold reconcile_dtypes, rbind.
  repeat (case_inner; cbn -[Dict.get omap take]); try discriminate;
    intros [= <-]; auto.
Qed.

Lemma check_synthetic_names_raises (a : Csv.args) (e : exn) :
  check_synthetic_names a = Raise e -> e = ValueError_column_prefix.
Proof.
  unfold check_synthetic_names.
  repeat (case_inner; cbn); try discriminate; intros [= <-]; reflexivity.
Qed.

Lemma comprehension_raises {A B} (f : A -> result B) (P : exn -> Prop) l e :
  (forall x e, f x = Raise e -> P e) ->
  comprehension f l = Raise e -> P e.
Proof.
  intros Hf. induction l as [|x l IH]; cbn; [discriminate |].
  destruct (f x) eqn:E; cbn; [| intros [= <-]; eauto].
  destruct (comprehension f l); cbn; [discriminate |].
  intros [= <-]. auto.
Qed.

Lemma include_columns_raises (a : Csv.args) (e : exn) :
  include_columns a = Raise e -> exists s, e = ValueError_int s.
Proof.
  unfold include_columns.
  destruct (Py.truthy (Csv.columns a)); cbn;
    [destruct (Csv.has_header a); cbn |].
  - destruct (Py.truthy (Csv.projection a)); discriminate.
  - destruct (comprehension to_pyarrow_name _) eqn:E; cbn.
    + destruct (Py.truthy (Csv.projection a)); discriminate.
    + intros [= <-].
      revert E.
      apply (comprehension_raises to_pyarrow_name
               (fun e => exists s, e = ValueError_int s)).
      intros x e' Hx.
      unfold to_pyarrow_name in Hx. destruct (Py.int _); inversion Hx; eauto.
  - destruct (Py.truthy (Csv.projection a)); discriminate.
Qed.

(** The rename after the read raises nothing but what the setter of
    [DataFrame.columns] raises. *)
Lemma renamed_raises (a : Csv.args) (df : DataFrame) (e : exn) :
  renamed env a df = Raise e -> exists msg, e = External msg.
Proof.
  unfold renamed, update_columns, of_answer.
  destruct (Py.truthy _); [| discriminate].
  destruct (DataFrame_set_columns _ _ _); [discriminate |].
  intros [= <-]. eauto.
Qed.

Lemma sat_renamed (Pev : event -> Prop) (Pex : exn -> Prop) a df :
  (forall msg, Pex (External msg)) -> sat Pev Pex (lift (renamed env a df)).
Proof.
  intros Hx. apply sat_lift. intros e He.
  destruct (renamed_raises a df e He) as [msg ->]. apply Hx.
Qed.

Lemma sat_read_csv_native (Pev : event -> Prop) (Pex : exn -> Prop) a kw :
  (forall ev, resolver_event ev -> Pev ev) ->
  (forall na, Pev (Call_DataFrame_read_csv na)) ->
  (forall e, resolver_exn e -> Pex e) ->
  Pex ValueError_more_new_than_selected ->
  Pex ValueError_more_new_than_projected ->
  sat Pev Pex (read_csv_native env a kw).
Proof.
  intros Hev Hnat Hex H1 H2. unfold read_csv_native.
  apply sat_bind;
    [| intros dt; apply sat_bind;
       [| intros df; apply sat_renamed; intros; apply Hex; exact I]].
  - apply sat_lift. intros e He.
    destruct (reconcile_dtypes_raises _ _ He) as [-> | ->]; assumption.
  - apply sat_with_file; try assumption. intros data.
    apply sat_call; [apply Hnat | intros; apply Hex; exact I].
Qed.

Lemma sat_read_csv_pyarrow (Pev : event -> Prop) (Pex : exn -> Prop) a kw :
  (forall ev, resolver_event ev -> Pev ev) ->
  (forall pa, Pev (Call_pa_csv_read_csv pa)) ->
  (forall e, resolver_exn e -> Pex e) ->
  (forall s, Pex (ValueError_int s)) ->
  sat Pev Pex (read_csv_pyarrow env a kw).
Proof.
  intros Hev Hpa Hex Hint. unfold read_csv_pyarrow.
  apply sat_bind;
    [| intros ic; apply sat_bind;
       [| intros tbl; apply sat_bind;
          [| intros; apply sat_renamed; intros; apply Hex; exact I]]].
  - apply sat_lift. intros e He.
    destruct (include_columns_raises _ _ He) as [s ->]. apply Hint.
  - apply sat_with_file; try assumption. intros data.
    apply sat_call; [apply Hpa | intros; apply Hex; exact I].
  - destruct (negb (Csv.has_header a)); [| apply sat_ret].
    apply sat_bind; [| intros names].
    + apply sat_lift. intros e He. revert He.
      apply (comprehension_raises of_pyarrow_name Pex). intros x e' Hx.
      unfold of_pyarrow_name in Hx. destruct (Py.int _); inversion Hx.
      apply Hint.
    + apply sat_lift. unfold rename_columns.
      destruct (_ =? _)%nat; intros e [= <-]. apply Hex. exact I.
Qed.

End CsvChecks.

Lemma read_csv_empty_bytes_witness :
  read_csv sample_env (csv_defaults (FBytes EmptyString)) empty_world
  = (empty_world, Raise ValueError_no_data_in_bytes).
Proof.
  exact (proj1 (read_csv_empty_bytes sample_env
                  (csv_defaults (FBytes EmptyString)) empty_world eq_refl)).
Defined.

(** ** [read_csv]: header-less selections *)

Section CsvHeaderless.

Variable env : Env.

(** C7, amended: [read_csv] with [has_header=False], a non-empty selection
    of column names and an input that is not an empty [bytes] object. If
    some name does not start with [column_], the call fails with the
    [InvalidOptionCombination] error of this check in the world it was
    called in (nothing was read); if every name starts with it, that error
    is not raised. *)
Theorem read_csv_headerless_selection (a : Csv.args) (w : world)
  (cols : list string) :
  Csv.has_header a = false ->
  Csv.columns a = Some cols ->
  cols <> [] ->
  is_empty_bytes (Csv.file a) = false ->
  ((exists c, c ∈ cols /\ Py.startswith c "column_" = false) ->
   read_csv env a w = (w, Raise ValueError_column_prefix)
   /\ kind_of ValueError_column_prefix = Some InvalidOptionCombination)
  /\ ((forall c, c ∈ cols -> Py.startswith c "column_" = true) ->
      snd (read_csv env a w) <> Raise ValueError_column_prefix).
Proof.
  intros Hh Hc Hne Hb.
  pose proof (check_synthetic_names_spec a cols Hh Hc Hne) as Hcheck.
  split.
  - intros (c & Hin & Hc'). split; [| reflexivity].
    unfold read_csv. rewrite Hb.
    destruct (forallb _ cols) eqn:Hall.
    + rewrite forallb_forall in Hall.
      rewrite (Hall c) in Hc' by (apply list_elem_of_In; exact Hin).
      discriminate.
    + unfold bind, lift. rewrite Hcheck. reflexivity.
  - intros Hall.
    assert (forallb (fun column => Py.startswith column "column_") cols = true)
      as Hfa.
    { apply forallb_forall. intros c Hin. apply Hall, list_elem_of_In, Hin. }
    rewrite Hfa in Hcheck.
    unfold read_csv. rewrite Hb. unfold bind at 1, lift. rewrite Hcheck.
    intros Hraise.
    assert (sat (fun _ => True) past_prefix_check
              (if Csv.use_pyarrow a && negb (_PYARROW_AVAILABLE env)
               then raise (ImportError_pyarrow "read_csv")
               else if pyarrow_eligible a
                    then read_csv_pyarrow env a
                           (default [] (Csv.storage_options a))
                    else read_csv_native env a
                           (default [] (Csv.storage_options a)))) as Hsat.
    { destruct (_ && _); [apply sat_raise; discriminate |].
      destruct (pyarrow_eligible a).
      - apply sat_read_csv_pyarrow; auto; intros; unfold past_prefix_check;
          try match goal with
              | H : resolver_exn ?e |- _ => destruct e; try destruct H
              end; discriminate.
      - apply sat_read_csv_native; auto; intros; unfold past_prefix_check;
          try match goal with
              | H : resolver_exn ?e |- _ => destruct e; try destruct H
              end; discriminate. }
    destruct (Hsat w) as [_ Hex]. apply (Hex _ Hraise). reflexivity.
Qed.

End CsvHeaderless.

Lemma read_csv_headerless_selection_witness :
  read_csv sample_env
    (csv_call (FStr "a.csv") false None (Some ["column_1"; "b"])
       None None false None false)
    empty_world
  = (empty_world, Raise ValueError_column_prefix).
Proof.
  apply (proj1 (read_csv_headerless_selection sample_env
    (csv_call (FStr "a.csv") false None (Some ["column_1"; "b"])
       None None false None false)
    empty_world ["column_1"; "b"] eq_refl eq_refl ltac:(discriminate) eq_refl)).
  exists "b". split; [| reflexivity].
  apply list_elem_of_In. cbn. auto.
Defined.

(** C7 as stated fails for an empty [bytes] input: that check comes first
    and its error is an [InvalidInput], although the header-less selection
    ["x"] lacks the prefix. *)
Lemma read_csv_headerless_selection_empty_bytes :
  let a := csv_call (FBytes EmptyString) false None (Some ["x"])
             None None false None false in
  Csv.has_header a = false
  /\ Csv.columns a = Some ["x"]
  /\ Py.startswith "x" "column_" = false
  /\ read_csv sample_env a empty_world
     = (empty_world, Raise ValueError_no_data_in_bytes)
  /\ kind_of ValueError_no_data_in_bytes <> Some InvalidOptionCombination.
Proof. cbv zeta. repeat split. discriminate. Qed.

(** ** Dicts *)

Section DictFacts.

Context {V : Type}.
Implicit Types (d items : list (string * V)) (k : string).

Lemma get_set d k v k' :
  Dict.get (Dict.set d k v) k'
  = if String.eqb k k' then Some v else Dict.get d k'.
Proof.
  induction d as [|[k0 v0] d IH]; cbn; [reflexivity |].
  destruct (String.eqb_spec k0 k) as [-> | Hne]; cbn.
  - destruct (String.eqb k k'); reflexivity.
  - rewrite IH. destruct (String.eqb_spec k0 k') as [-> | Hne'];
      [| reflexivity].
    destruct (String.eqb_spec k k'); [congruence | reflexivity].
Qed.

Lemma get_fold_set items : forall d k,
  Dict.get (fold_left (fun d kv => Dict.set d (fst kv) (snd kv)) items d) k
  = match lookup_last items k with
    | Some v => Some v
    | None => Dict.get d k
    end.
Proof.
  induction items as [|[k0 v0] items IH]; intros d k; cbn; [reflexivity |].
  rewrite IH, get_set; cbn.
  destruct (lookup_last items k); [reflexivity |].
  destruct (String.eqb k0 k); reflexivity.
Qed.

Lemma get_of_items items k : Dict.get (Dict.of_items items) k = lookup_last items k.
Proof.
  unfold Dict.of_items. rewrite get_fold_set.
  destruct (lookup_last items k); reflexivity.
Qed.

Lemma lookup_last_None items k :
  k ∉ map fst items -> lookup_last items k = None.
Proof.
  induction items as [|[k0 v0] items IH]; cbn; [reflexivity |].
  intros Hnin. rewrite IH by (intros H; apply Hnin; right; exact H).
  destruct (String.eqb_spec k0 k) as [-> | Hne]; [| reflexivity].
  exfalso. apply Hnin. left.
Qed.

Lemma lookup_last_is_Some items k :
  k ∈ map fst items -> is_Some (lookup_last items k).
Proof.
  induction items as [|[k0 v0] items IH]; cbn; intros Hin.
  - inversion Hin.
  - destruct (lookup_last items k) eqn:E; [eauto |].
    apply elem_of_cons in Hin as [-> | Hin].
    + rewrite String.eqb_refl. eauto.
    + destruct (IH Hin) as [? ?]. congruence.
Qed.

Lemma get_is_Some d k : k ∈ map fst d -> is_Some (Dict.get d k).
Proof.
  induction d as [|[k0 v0] d IH]; cbn; intros Hin.
  - inversion Hin.
  - destruct (String.eqb_spec k0 k) as [-> | Hne]; [eauto |].
    apply elem_of_cons in Hin as [-> | Hin]; [congruence | auto].
Qed.

Lemma get_elem_of d k v : Dict.get d k = Some v -> (k, v) ∈ d.
Proof.
  induction d as [|[k0 v0] d IH]; cbn; [discriminate |].
  destruct (String.eqb_spec k0 k) as [-> | Hne].
  - intros [= ->]. left.
  - intros H. right. auto.
Qed.

End DictFacts.

Section Rekeying.

Implicit Types (L C : list string) (d : Dict.t DataType).

Lemma keys_zip_subseteq L C k : k ∈ map fst (zip L C) -> k ∈ L.
Proof.
  revert C. induction L as [|k0 L IH]; intros [|c0 C]; cbn;
    try (intros H; inversion H; fail).
  intros H. apply elem_of_cons in H as [-> | H]; [left | right; eauto].
Qed.

(** With distinct new names, the new name at position [i] stands for the
    current name at position [i]. *)
Lemma new_to_current_lookup L C i k c :
  NoDup L -> L !! i = Some k -> C !! i = Some c ->
  Dict.get_default (new_to_current L C) k k = c.
Proof.
  unfold Dict.get_default, new_to_current. rewrite get_of_items.
  intros Hnd. revert C i. induction Hnd as [|k0 L Hnin Hnd IH];
    intros [|c0 C] [|i]; cbn; try discriminate.
  - intros [= ->] [= ->].
    rewrite lookup_last_None
      by (intros H; apply Hnin; eapply keys_zip_subseteq; exact H).
    rewrite String.eqb_refl. reflexivity.
  - intros HL HC. specialize (IH C i HL HC).
    destruct (lookup_last (zip L C) k) eqn:E; [exact IH |].
    destruct (String.eqb_spec k0 k) as [-> | Hne]; [| exact IH].
    exfalso. apply Hnin. eapply list_elem_of_lookup_2; exact HL.
Qed.

(** A name that is not a new name stands for itself. *)
Lemma new_to_current_other L C k :
  k ∉ L -> Dict.get_default (new_to_current L C) k k = k.
Proof.
  intros Hnin. unfold Dict.get_default, new_to_current.
  rewrite get_of_items, lookup_last_None; [reflexivity |].
  intros H. apply Hnin. eapply keys_zip_subseteq; exact H.
Qed.

(** Every key of the overrides has its image among the keys after the
    re-keying. *)
Lemma rekey_mem (m : Dict.t string) d k :
  k ∈ Dict.keys d ->
  Dict.mem (rekey m d) (Dict.get_default m k k) = true.
Proof.
  intros Hin. unfold Dict.mem, rekey. rewrite get_of_items.
  destruct (lookup_last_is_Some
              (map (fun kv => (Dict.get_default m (fst kv) (fst kv), snd kv)) d)
              (Dict.get_default m k k)) as [v ->]; [| reflexivity].
  rewrite map_map; cbn.
  unfold Dict.keys in Hin. apply list_elem_of_fmap in Hin as ([k1 v1] & -> & Hin).
  apply list_elem_of_fmap. exists (k1, v1). split; [reflexivity | exact Hin].
Qed.

(** When no two keys of the overrides have the same image, every override
    keeps its dtype under its image. *)
Lemma rekey_get (m : Dict.t string) d k v :
  NoDup (Dict.keys d) ->
  (forall k', k' ∈ Dict.keys d ->
     Dict.get_default m k' k' = Dict.get_default m k k -> k' = k) ->
  Dict.get d k = Some v ->
  Dict.get (rekey m d) (Dict.get_default m k k) = Some v.
Proof.
  unfold rekey, Dict.keys. rewrite get_of_items.
  induction d as [|[k0 v0] d IH]; cbn; [discriminate |].
  intros Hnd Hinj Hget. apply NoDup_cons in Hnd as [Hnin Hnd].
  destruct (String.eqb_spec k0 k) as [-> | Hne].
  - injection Hget as ->.
    rewrite lookup_last_None, String.eqb_refl; [reflexivity |].
    rewrite map_map; cbn. intros H.
    apply list_elem_of_fmap in H as ([k1 v1] & Heq & Hin). cbn in Heq.
    assert (k1 = k) as ->.
    { apply Hinj; [right; apply list_elem_of_fmap; exists (k1, v1); auto
                  | congruence]. }
    apply Hnin. apply list_elem_of_fmap. exists (k, v1). auto.
  - rewrite IH; auto. intros k' Hk'. apply Hinj. right. exact Hk'.
Qed.

End Rekeying.

(** ** [read_csv]: the native strategy *)

Section CsvNative.

Variable env : Env.

Lemma exit_trace c w : w_trace (fst (exit c w)) = w_trace w.
Proof. destruct c; reflexivity. Qed.

(** A run of the native strategy whose source resolves: the native reader
    is called once, on the resolved source and the reconciled dtypes, and
    its table is renamed. *)
Lemma read_csv_native_run (a : Csv.args) kw dt w w1 c w2 data :
  reconcile_dtypes a = Ok dt ->
  _prepare_file_arg env (Csv.file a) kw w = (w1, Ok c) ->
  enter c w1 = (w2, Ok data) ->
  let na := native_csv_args a data dt in
  w_trace (fst (read_csv_native env a kw w))
  = w_trace w2 ++ [Call_DataFrame_read_csv na]
  /\ snd (read_csv_native env a kw w)
     = match snd (DataFrame_read_csv env na (w_heap w2)) with
       | Returns df => renamed env a df
       | Fails msg => Raise (External msg)
       end.
Proof.
  intros Hrec Hprep Henter na.
  unfold read_csv_native, with_file, bind, lift. rewrite Hrec, Hprep.
  unfold with_. rewrite Henter. unfold call. fold na.
  destruct (DataFrame_read_csv env na (w_heap w2)) as [h [df|msg]]; cbn;
    rewrite exit_trace; split; reflexivity.
Qed.

Lemma forces_native_not_eligible (a : Csv.args) :
  forces_native a = true -> pyarrow_eligible a = false.
Proof.
  unfold forces_native, pyarrow_eligible.
  destruct (Csv.use_pyarrow a), (Py.is_None (Csv.dtypes a)),
    (Py.is_None (Csv.n_rows a)), (Py.is_None (Csv.n_threads a)),
    (String.eqb (Csv.encoding a) "utf8"), (Csv.low_memory a),
    (Py.is_None (Csv.null_values a)), (Csv.parse_dates a);
    cbn; congruence.
Qed.

(** C1, amended: [read_csv] with [use_pyarrow=True], pyarrow installed, and
    one of the options pyarrow does not support set (or [parse_dates]
    off). The pyarrow reader is never called. The only exceptions the call
    can end with are those of the checks that do not look at [use_pyarrow]
    (empty [bytes], header-less selection without the prefix, more new
    names than selected columns) and those of the collaborators: the
    source resolver, the native reader and, when there is a rename list,
    the setter of the column names. When these checks pass and the source
    resolves, the native reader is called, with the reconciled dtypes, and
    its table is renamed. *)
Theorem read_csv_unsupported_by_pyarrow (a : Csv.args) (w : world) :
  _PYARROW_AVAILABLE env = true ->
  Csv.use_pyarrow a = true ->
  forces_native a = true ->
  extends (fun ev => forall pa, ev <> Call_pa_csv_read_csv pa)
    w (fst (read_csv env a w))
  /\ (forall e, snd (read_csv env a w) = Raise e ->
      validation_exn e \/ resolver_exn e)
  /\ (forall dt w1 c w2 data,
      is_empty_bytes (Csv.file a) = false ->
      check_synthetic_names a = Ok tt ->
      reconcile_dtypes a = Ok dt ->
      _prepare_file_arg env (Csv.file a) (default [] (Csv.storage_options a)) w
      = (w1, Ok c) ->
      enter c w1 = (w2, Ok data) ->
      w_trace (fst (read_csv env a w))
      = w_trace w2 ++ [Call_DataFrame_read_csv (native_csv_args a data dt)]
      /\ snd (read_csv env a w)
         = match snd (DataFrame_read_csv env (native_csv_args a data dt)
                        (w_heap w2)) with
           | Returns df => renamed env a df
           | Fails msg => Raise (External msg)
           end).
Proof.
  intros Hav Hpa Hforce.
  pose proof (forces_native_not_eligible a Hforce) as Hne.
  assert (sat (fun ev => forall pa, ev <> Call_pa_csv_read_csv pa)
            (fun e => validation_exn e \/ resolver_exn e)
            (read_csv env a)) as Hsat.
  { unfold read_csv. rewrite Hav, Hpa, Hne. cbn [negb andb].
    destruct (is_empty_bytes _); [apply sat_raise; left; exact I |].
    apply sat_bind; [| intros _].
    - apply sat_lift. intros e He.
      rewrite (check_synthetic_names_raises a e He). left. exact I.
    - apply sat_read_csv_native; auto; try (left; exact I);
        try (intros; discriminate).
      intros ev Hev pa. destruct ev; try destruct Hev; discriminate. }
  split; [apply Hsat | split; [apply Hsat |]].
  intros dt w1 c w2 data Hb Hcheck Hrec Hprep Henter.
  rewrite read_csv_past_checks by (rewrite ?Hav, ?Hpa; auto).
  rewrite Hne. eapply read_csv_native_run; eassumption.
Qed.

End CsvNative.

Lemma read_csv_unsupported_by_pyarrow_witness :
  let a := csv_call (FStr "a.csv") true None None None None true (Some 5) true in
  w_trace (fst (read_csv sample_env a empty_world))
  = [Call_prepare_file_arg (FStr "a.csv") [];
     Call_DataFrame_read_csv (native_csv_args a (Src (FStr "a.csv")) None)].
Proof.
  exact (proj1 (proj2 (proj2 (read_csv_unsupported_by_pyarrow sample_env
    (csv_call (FStr "a.csv") true None None None None true (Some 5) true)
    empty_world eq_refl eq_refl eq_refl))
    None
    {| w_heap := []; w_trace := [Call_prepare_file_arg (FStr "a.csv") []] |}
    (managed_file (FStr "a.csv"))
    {| w_heap := []; w_trace := [Call_prepare_file_arg (FStr "a.csv") []] |}
    (Src (FStr "a.csv"))
    eq_refl eq_refl eq_refl eq_refl eq_refl)).
Defined.

(** C1 as stated fails when the dtype overrides are a dict and there are
    more new names than selected columns: with [use_pyarrow=True] and
    pyarrow installed, the call below ends with an
    [InvalidOptionCombination] error in the world it was called in, so
    [DataFrame.read_csv] was not called. *)
Lemma read_csv_unsupported_by_pyarrow_rejected :
  let a := csv_call (FStr "a.csv") true None (Some ["x"])
             (Some (DtDict [("a", "Int64")])) (Some ["a"; "b"])
             true None true in
  _PYARROW_AVAILABLE sample_env = true
  /\ Csv.use_pyarrow a = true
  /\ Py.is_None (Csv.dtypes a) = false
  /\ read_csv sample_env a empty_world
     = (empty_world, Raise ValueError_more_new_than_selected)
  /\ kind_of ValueError_more_new_than_selected = Some InvalidOptionCombination.
Proof. cbv zeta. repeat split. Qed.

(** ** [read_csv]: dtype overrides keyed by new names *)

Section CsvReconcile.

Variable env : Env.

(** C4, amended: [read_csv] with a non-empty rename list [L], a non-empty
    dtype dict and a non-empty column selection [C], on an input that is
    not an empty [bytes] object, with pyarrow installed if it is asked for.
    If [L] is longer than [C] the call fails with an
    [InvalidOptionCombination] error in the world it was called in.
    Otherwise, when the header-less check passes, every key [k] of the
    dict is replaced by [new_to_current.get(k, k)], where [new_to_current]
    maps [L[i]] to [C[i]]: with distinct new names the key [L[i]] becomes
    [C[i]], a key outside [L] stays, the image of every key is a key of the
    result, an override whose image no other key shares keeps its dtype,
    and the native reader is called with the resulting dict. *)
Theorem read_csv_reconcile (a : Csv.args) (w : world)
  (L C : list string) (p : string * DataType) (d : Dict.t DataType) :
  Csv.new_columns a = Some L ->
  Csv.dtypes a = Some (DtDict (p :: d)) ->
  Csv.columns a = Some C ->
  L <> [] ->
  C <> [] ->
  is_empty_bytes (Csv.file a) = false ->
  Csv.use_pyarrow a && negb (_PYARROW_AVAILABLE env) = false ->
  ((length C < length L)%nat ->
   exists e, read_csv env a w = (w, Raise e)
             /\ kind_of e = Some InvalidOptionCombination)
  /\ ((length L <= length C)%nat ->
      check_synthetic_names a = Ok tt ->
      let m := new_to_current L (take (length L) C) in
      reconcile_dtypes a = Ok (Some (DtDict (rekey m (p :: d))))
      /\ (NoDup L -> forall i k c,
            L !! i = Some k -> C !! i = Some c -> Dict.get_default m k k = c)
      /\ (forall k, k ∉ L -> Dict.get_default m k k = k)
      /\ (forall k, k ∈ Dict.keys (p :: d) ->
            Dict.mem (rekey m (p :: d)) (Dict.get_default m k k) = true)
      /\ (NoDup (Dict.keys (p :: d)) -> forall k v,
            (forall k', k' ∈ Dict.keys (p :: d) ->
               Dict.get_default m k' k' = Dict.get_default m k k -> k' = k) ->
            Dict.get (p :: d) k = Some v ->
            Dict.get (rekey m (p :: d)) (Dict.get_default m k k) = Some v)
      /\ (forall w1 c w2 data,
            _prepare_file_arg env (Csv.file a)
              (default [] (Csv.storage_options a)) w = (w1, Ok c) ->
            enter c w1 = (w2, Ok data) ->
            w_trace (fst (read_csv env a w))
            = w_trace w2
              ++ [Call_DataFrame_read_csv
                    (native_csv_args a data
                       (Some (DtDict (rekey m (p :: d)))))])).
Proof.
  intros HL Hd HC HLne HCne Hb Hpa.
  assert (pyarrow_eligible a = false) as Hne.
  { unfold pyarrow_eligible. rewrite Hd. cbn.
    destruct (Csv.use_pyarrow a); reflexivity. }
  assert (Py.truthy (Csv.new_columns a) = true) as HtL
    by (rewrite HL; destruct L; [congruence | reflexivity]).
  assert (Py.truthy (Csv.columns a) = true) as HtC
    by (rewrite HC; destruct C; [congruence | reflexivity]).
  split.
  - intros Hlt.
    assert (reconcile_dtypes a = Raise ValueError_more_new_than_selected)
      as Hrec.
    { unfold reconcile_dtypes. rewrite Hd, HtL, HtC, HL, HC.
      cbn -[Nat.ltb]. apply Nat.ltb_lt in Hlt. rewrite Hlt. reflexivity. }
    destruct (check_synthetic_names a) as [[]|e] eqn:Hcheck.
    + exists ValueError_more_new_than_selected. split; [| reflexivity].
      rewrite read_csv_past_checks, Hne by assumption.
      unfold read_csv_native, bind, lift. rewrite Hrec. reflexivity.
    + exists ValueError_column_prefix. split; [| reflexivity].
      unfold read_csv, bind, lift. rewrite Hb, Hcheck.
      rewrite (check_synthetic_names_raises a e Hcheck). reflexivity.
  - intros Hle Hcheck m.
    assert (reconcile_dtypes a = Ok (Some (DtDict (rekey m (p :: d)))))
      as Hrec.
    { unfold reconcile_dtypes. rewrite Hd, HtL, HtC, HL, HC.
      cbn -[Nat.ltb take new_to_current rekey].
      destruct (Nat.ltb_spec (length C) (length L)) as [Hlt|_]; [lia |].
      cbn -[take new_to_current rekey].
      destruct (take (length L) C) eqn:Htake; [| reflexivity].
      apply (f_equal length) in Htake. rewrite length_take in Htake.
      destruct L, C; cbn in *; congruence || lia. }
    repeat split.
    + exact Hrec.
    + intros Hnd i k c Hi Hc. eapply new_to_current_lookup; eauto.
      rewrite lookup_take_lt; [exact Hc |].
      eapply lookup_lt_Some; exact Hi.
    + intros k. apply new_to_current_other.
    + intros k. apply rekey_mem.
    + intros Hnd k v. apply rekey_get. exact Hnd.
    + intros w1 c w2 data Hprep Henter.
      rewrite read_csv_past_checks, Hne by assumption.
      eapply read_csv_native_run; eassumption.
Qed.

End CsvReconcile.

Lemma read_csv_reconcile_witness :
  reconcile_dtypes
    (csv_call (FStr "a.csv") true None (Some ["x"; "y"])
       (Some (DtDict [("a", "Int64")])) (Some ["a"]) false None false)
  = Ok (Some (DtDict [("x", "Int64")]))
  /\ exists e,
       read_csv sample_env
         (csv_call (FStr "a.csv") true None (Some ["x"])
            (Some (DtDict [("a", "Int64")])) (Some ["a"; "b"]) false None false)
         empty_world
       = (empty_world, Raise e)
       /\ kind_of e = Some InvalidOptionCombination.
Proof.
  split.
  - exact (proj1 (proj2 (read_csv_reconcile sample_env
      (csv_call (FStr "a.csv") true None (Some ["x"; "y"])
         (Some (DtDict [("a", "Int64")])) (Some ["a"]) false None false)
      empty_world ["a"] ["x"; "y"] ("a", "Int64") []
      eq_refl eq_refl eq_refl ltac:(discriminate) ltac:(discriminate)
      eq_refl eq_refl) ltac:(cbn; lia) eq_refl)).
  - exact (proj1 (read_csv_reconcile sample_env
      (csv_call (FStr "a.csv") true None (Some ["x"])
         (Some (DtDict [("a", "Int64")])) (Some ["a"; "b"]) false None false)
      empty_world ["a"; "b"] ["x"] ("a", "Int64") []
      eq_refl eq_refl eq_refl ltac:(discriminate) ltac:(discriminate)
      eq_refl eq_refl) ltac:(cbn; lia)).
Defined.

(** C4 as stated fails in two ways. With an empty dtype dict the block
    that compares the lengths is skipped: the first call below, with two
    new names for one selected column, reaches the native reader; what it
    ends with after the read is the exception of the setter of the column
    names, not an [InvalidOptionCombination] error. With an empty [bytes]
    input the call fails earlier, with an [InvalidInput] error. *)
Lemma read_csv_reconcile_not_engaged :
  let a1 := csv_call (FStr "a.csv") true None (Some ["x"])
              (Some (DtDict [])) (Some ["a"; "b"]) false None false in
  let a2 := csv_call (FBytes EmptyString) true None (Some ["x"])
              (Some (DtDict [("a", "Int64")])) (Some ["a"; "b"])
              false None false in
  w_trace (fst (read_csv sample_env a1 empty_world))
  = [Call_prepare_file_arg (FStr "a.csv") [];
     Call_DataFrame_read_csv
       (native_csv_args a1 (Src (FStr "a.csv")) (Some (DtDict [])))]
  /\ (exists e, snd (read_csv sample_env a1 empty_world) = Raise e
                /\ kind_of e = None)
  /\ read_csv sample_env a2 empty_world
     = (empty_world, Raise ValueError_no_data_in_bytes)
  /\ kind_of ValueError_no_data_in_bytes <> Some InvalidOptionCombination.
Proof.
  cbv zeta. split; [reflexivity |].
  split; [eexists; split; reflexivity |].
  split; [reflexivity | discriminate].
Qed.

(** ** [read_csv]: column names of a header-less file read with pyarrow *)

Section CsvPyarrowNames.

Variable env : Env.

Lemma comprehension_map {A B X} (f : A -> result B) (g : X -> A) (h : X -> B)
  (l : list X) :
  (forall x, f (g x) = Ok (h x)) ->
  comprehension f (map g l) = Ok (map h l).
Proof.
  intros Hf. induction l as [|x l IH]; cbn; [reflexivity |].
  rewrite Hf, IH. reflexivity.
Qed.

Lemma to_pyarrow_name_synthetic (k : Z) :
  to_pyarrow_name ("column_" +:+ Py.str k) = Ok ("f" +:+ Py.str (k - 1)).
Proof.
  unfold to_pyarrow_name.
  change (Py.str_drop 7 ("column_" +:+ Py.str k))
    with (Py.str_drop 0 (Py.str k)).
  rewrite str_drop_isascii by apply isascii_str.
  rewrite int_str. reflexivity.
Qed.

Lemma of_pyarrow_name_positional (j : Z) :
  of_pyarrow_name ("f" +:+ Py.str j) = Ok ("column_" +:+ Py.str (j + 1)).
Proof.
  unfold of_pyarrow_name.
  change (Py.str_drop 1 ("f" +:+ Py.str j)) with (Py.str_drop 0 (Py.str j)).
  rewrite str_drop_isascii by apply isascii_str.
  rewrite int_str. reflexivity.
Qed.

Lemma synthetic_names_shift (n : nat) :
  map (fun j => "column_" +:+ Py.str (j + 1)) (range 0 n) = synthetic_names n.
Proof.
  unfold synthetic_names, range.
  replace (n + 1 - 1)%nat with n by lia. rewrite Nat.sub_0_r.
  rewrite <- seq_shift, !map_map. apply map_ext. intros i.
  do 2 f_equal. lia.
Qed.

(** C3, amended. The translation between the two naming schemes:
    [column_<k>] is requested from pyarrow as [f<k-1>], pyarrow's [f<j>]
    comes back as [column_<j+1>], so a requested name comes back as itself
    and pyarrow's names [f0 .. f<n-1>] of a whole header-less file come
    back as the native names [column_1 .. column_<n>]. And the run: when
    [read_csv] reads a header-less file with pyarrow and pyarrow answers
    with the columns at the zero-based positions [js], the table handed to
    [from_arrow] has the names [column_<j+1>] for [j] in [js]; the rename
    list, if any, is applied to that table afterwards. *)
Theorem read_csv_pyarrow_headerless_names :
  (forall k, to_pyarrow_name ("column_" +:+ Py.str k)
             = Ok ("f" +:+ Py.str (k - 1)))
  /\ (forall j, of_pyarrow_name ("f" +:+ Py.str j)
                = Ok ("column_" +:+ Py.str (j + 1)))
  /\ (forall k, rbind (to_pyarrow_name ("column_" +:+ Py.str k)) of_pyarrow_name
                = Ok ("column_" +:+ Py.str k))
  /\ (forall n, comprehension of_pyarrow_name (pyarrow_names n)
                = Ok (synthetic_names n))
  /\ (forall (a : Csv.args) ks,
        Csv.has_header a = false ->
        Csv.columns a = Some (map (fun k => "column_" +:+ Py.str k) ks) ->
        ks <> [] ->
        include_columns a = Ok (Some (map (fun k => "f" +:+ Py.str (k - 1)) ks)))
  /\ (forall (a : Csv.args) w ic w1 c w2 data h tbl js,
        Csv.has_header a = false ->
        pyarrow_eligible a = true ->
        _PYARROW_AVAILABLE env = true ->
        is_empty_bytes (Csv.file a) = false ->
        check_synthetic_names a = Ok tt ->
        include_columns a = Ok ic ->
        _prepare_file_arg env (Csv.file a)
          (default [] (Csv.storage_options a)) w = (w1, Ok c) ->
        enter c w1 = (w2, Ok data) ->
        pa_csv_read_csv env (pyarrow_csv_args a data ic) (w_heap w2)
        = (h, Returns tbl) ->
        column_names tbl = map (fun j => "f" +:+ Py.str j) js ->
        snd (read_csv env a w)
        = renamed env a
            (from_arrow env
               {| column_names :=
                    map (fun j => "column_" +:+ Py.str (j + 1)) js;
                  tbl_data := tbl_data tbl |}
               (Csv.rechunk a))).
Proof.
  split; [exact to_pyarrow_name_synthetic |].
  split; [exact of_pyarrow_name_positional |].
  split.
  { intros k. rewrite to_pyarrow_name_synthetic. cbn [rbind].
    rewrite of_pyarrow_name_positional. do 3 f_equal. lia. }
  split.
  { intros n. unfold pyarrow_names. rewrite <- synthetic_names_shift.
    apply comprehension_map, of_pyarrow_name_positional. }
  split.
  { intros a ks Hh Hc Hne. unfold include_columns. rewrite Hh, Hc.
    destruct ks as [|k ks]; [congruence |].
    cbn [map Py.truthy negb default from_option id andb rbind].
    change (comprehension to_pyarrow_name
              (("column_" +:+ Py.str k)
                 :: map (fun k => "column_" +:+ Py.str k) ks))
      with (comprehension to_pyarrow_name
              (map (fun k => "column_" +:+ Py.str k) (k :: ks))).
    rewrite (comprehension_map _ _ (fun k => "f" +:+ Py.str (k - 1)))
      by exact to_pyarrow_name_synthetic.
    reflexivity. }
  intros a w ic w1 c w2 data h tbl js Hh Hel Hav Hb Hcheck Hic Hprep Henter
    Hpa Hnames.
  rewrite read_csv_past_checks, Hel
    by (rewrite ?Hav; auto using andb_false_r).
  unfold read_csv_pyarrow, with_file, bind, lift. rewrite Hic, Hprep.
  unfold with_. rewrite Henter. unfold call. rewrite Hpa.
  cbn [fst snd of_answer].
  rewrite Hh. cbn [negb]. rewrite Hnames.
  rewrite (comprehension_map _ _ (fun j => "column_" +:+ Py.str (j + 1)))
    by exact of_pyarrow_name_positional.
  unfold rename_columns. rewrite Hnames, !length_map, Nat.eqb_refl.
  destruct c; reflexivity.
Qed.

End CsvPyarrowNames.

Lemma read_csv_pyarrow_headerless_names_witness :
  let a := csv_call (FStr "a.csv") false None None None None true None true in
  snd (read_csv sample_env a empty_world)
  = Ok (mkDataFrame ["column_1"; "column_2"; "column_3"] 7).
Proof.
  exact (proj2 (proj2 (proj2 (proj2 (proj2
    (read_csv_pyarrow_headerless_names sample_env)))))
    (csv_call (FStr "a.csv") false None None None None true None true)
    empty_world None
    {| w_heap := []; w_trace := [Call_prepare_file_arg (FStr "a.csv") []] |}
    (managed_file (FStr "a.csv"))
    {| w_heap := []; w_trace := [Call_prepare_file_arg (FStr "a.csv") []] |}
    (Src (FStr "a.csv")) [] (mkTable (pyarrow_names 3) 7) [0; 1; 2]
    eq_refl eq_refl eq_refl eq_refl eq_refl eq_refl eq_refl eq_refl eq_refl
    eq_refl).
Defined.

(** C3 as stated fails when columns are selected: the header-less read
    below goes through pyarrow and returns the single column [column_2],
    which is not [column_1 .. column_N] for any [N]. *)
Lemma read_csv_pyarrow_headerless_selection :
  let a := csv_call (FStr "a.csv") false None (Some ["column_2"])
             None None true None true in
  pyarrow_eligible a = true
  /\ w_trace (fst (read_csv sample_env a empty_world))
     = [Call_prepare_file_arg (FStr "a.csv") [];
        Call_pa_csv_read_csv
          (pyarrow_csv_args a (Src (FStr "a.csv")) (Some ["f1"]))]
  /\ snd (read_csv sample_env a empty_world) = Ok (mkDataFrame ["column_2"] 7)
  /\ forall n, ["column_2"] <> synthetic_names n.
Proof.
  cbv zeta. repeat split.
  intros [|n]; [discriminate |].
  unfold synthetic_names, range.
  replace (S n + 1 - 1)%nat with (S n) by lia. discriminate.
Qed.

(** ** The source resolver: what the release does *)

Section Release.

Variable env : Env.

Lemma prepare_passed_through file file' kw w :
  passed_through env file file' ->
  _prepare_file_arg env file kw w
  = ({| w_heap := w_heap w;
        w_trace := w_trace w ++ [Call_prepare_file_arg file kw] |},
     Ok (managed_file file')).
Proof.
  intros H. unfold _prepare_file_arg, bind, emit.
  destruct H as [h|b|p|s Hf Hp|s Hf Hs|l Hf Hl|l Hf]; cbn;
    try reflexivity.
  - rewrite Hf, Hp. reflexivity.
  - rewrite Hf, Hs. reflexivity.
  - rewrite Hf, Hl. destruct l; reflexivity.
  - rewrite Hf. destruct l; reflexivity.
Qed.

(** For these descriptors the [with] block is its body run on the
    descriptor: leaving the block changes nothing, whether the body
    returned or raised. *)
Lemma with_file_passed_through {A} file file' kw (body : source -> M A) w :
  passed_through env file file' ->
  with_file env file kw body w
  = body (Src file')
      {| w_heap := w_heap w;
         w_trace := w_trace w ++ [Call_prepare_file_arg file kw] |}.
Proof.
  intros H. unfold with_file, bind.
  rewrite (prepare_passed_through _ _ _ _ H). unfold with_. cbn.
  destruct (body _ _) as [[h t] r]. reflexivity.
Qed.

(** A [BytesIO] is returned as it is, not through [managed_file]: an open
    buffer of the caller is closed when the [with] block is left, whether
    the body returned or raised. *)
Lemma with_file_BytesIO {A} h s kw (body : source -> M A) w :
  w_heap w !! h = Some s ->
  s_closed s = false ->
  with_file env (FBytesIO h) kw body w
  = let (w2, r) :=
      body (Src (FBytesIO h))
        {| w_heap := w_heap w;
           w_trace := w_trace w ++ [Call_prepare_file_arg (FBytesIO h) kw] |} in
    (fst (close h w2), r).
Proof.
  intros Hs Hopen. unfold with_file, bind, _prepare_file_arg, emit, ret, with_.
  cbn. rewrite Hs, Hopen. reflexivity.
Qed.

End Release.

(** C6 fails for the in-memory byte buffer: [read_csv] on an open
    [BytesIO] of the caller returns a table and leaves that buffer
    closed. *)
Theorem read_csv_closes_BytesIO :
  let run := read_csv sample_env (csv_defaults (FBytesIO 0%nat)) buffer_world in
  w_heap buffer_world !! 0%nat = Some (mkStream "a,b,c" 0 false)
  /\ snd run = Ok (mkDataFrame sample_header 7)
  /\ w_heap (fst run) !! 0%nat = Some (mkStream "a,b,c" 0 true).
Proof. cbv zeta. repeat split. Qed.

(** ** [read_ipc] and [read_parquet] *)

Section ColumnarReaders.

Variable env : Env.

Lemma sat_read_ipc (Pev : event -> Prop) (Pex : exn -> Prop) a :
  (forall ev, resolver_event ev -> Pev ev) ->
  (forall pa, Pev (Call_pa_feather_read_table pa)) ->
  (forall na, Pev (Call_DataFrame_read_ipc na)) ->
  (forall e, resolver_exn e -> Pex e) ->
  Pex ValueError_n_rows_with_pyarrow ->
  (forall fn, Pex (ImportError_pyarrow fn)) ->
  sat Pev Pex (read_ipc env a).
Proof.
  intros Hev Hpa Hna Hex Hn Hi. unfold read_ipc.
  destruct (_ && _); [apply sat_raise, Hn |].
  apply sat_with_file; try assumption. intros data.
  destruct (Columnar.use_pyarrow a).
  - destruct (negb _); [apply sat_raise, Hi |].
    apply sat_bind; [| intros; apply sat_ret].
    apply sat_call; [apply Hpa | intros; apply Hex; exact I].
  - apply sat_call; [apply Hna | intros; apply Hex; exact I].
Qed.

Lemma sat_read_parquet (Pev : event -> Prop) (Pex : exn -> Prop) a :
  (forall ev, resolver_event ev -> Pev ev) ->
  (forall pa, Pev (Call_pa_parquet_read_table pa)) ->
  (forall na, Pev (Call_DataFrame_read_parquet na)) ->
  (forall e, resolver_exn e -> Pex e) ->
  Pex ValueError_n_rows_with_pyarrow ->
  (forall fn, Pex (ImportError_pyarrow fn)) ->
  sat Pev Pex (read_parquet env a).
Proof.
  intros Hev Hpa Hna Hex Hn Hi. unfold read_parquet.
  destruct (_ && _); [apply sat_raise, Hn |].
  apply sat_with_file; try assumption. intros data.
  destruct (Columnar.use_pyarrow a).
  - destruct (negb _); [apply sat_raise, Hi |].
    apply sat_bind; [| intros; apply sat_ret].
    apply sat_call; [apply Hpa | intros; apply Hex; exact I].
  - apply sat_call; [apply Hna | intros; apply Hex; exact I].
Qed.

(** A run of [read_ipc] or [read_parquet] that passes the row-cap check
    and whose source resolves: one reader is called, pyarrow's or the
    native one. *)
Lemma read_ipc_run (a : Columnar.args) w w1 c w2 data :
  Columnar.use_pyarrow a && Py.truthy_int (Columnar.n_rows a) = false ->
  Columnar.use_pyarrow a && negb (_PYARROW_AVAILABLE env) = false ->
  _prepare_file_arg env (Columnar.file a)
    (default [] (Columnar.storage_options a)) w = (w1, Ok c) ->
  enter c w1 = (w2, Ok data) ->
  w_trace (fst (read_ipc env a w))
  = w_trace w2
    ++ [if Columnar.use_pyarrow a
        then Call_pa_feather_read_table (pyarrow_columnar_args a data [])
        else Call_DataFrame_read_ipc (native_columnar_args a data)].
Proof.
  intros Hn Hav Hprep Henter. unfold read_ipc. rewrite Hn.
  unfold with_file, bind. rewrite Hprep. unfold with_. rewrite Henter.
  destruct (Columnar.use_pyarrow a); cbn in Hav.
  - rewrite Hav. unfold bind, call, ret.
    destruct (pa_feather_read_table env _ _) as [h [tbl|msg]]; cbn;
      apply exit_trace.
  - unfold call. destruct (DataFrame_read_ipc env _ _) as [h r]; cbn.
    apply exit_trace.
Qed.

Lemma read_parquet_run (a : Columnar.args) w w1 c w2 data :
  Columnar.use_pyarrow a && Py.truthy_int (Columnar.n_rows a) = false ->
  Columnar.use_pyarrow a && negb (_PYARROW_AVAILABLE env) = false ->
  _prepare_file_arg env (Columnar.file a)
    (default [] (Columnar.storage_options a)) w = (w1, Ok c) ->
  enter c w1 = (w2, Ok data) ->
  w_trace (fst (read_parquet env a w))
  = w_trace w2
    ++ [if Columnar.use_pyarrow a
        then Call_pa_parquet_read_table
               (pyarrow_columnar_args a data (Columnar.extra a))
        else Call_DataFrame_read_parquet (native_columnar_args a data)].
Proof.
  intros Hn Hav Hprep Henter. unfold read_parquet. rewrite Hn.
  unfold with_file, bind. rewrite Hprep. unfold with_. rewrite Henter.
  destruct (Columnar.use_pyarrow a); cbn in Hav.
  - rewrite Hav. unfold bind, call, ret.
    destruct (pa_parquet_read_table env _ _) as [h [tbl|msg]]; cbn;
      apply exit_trace.
  - unfold call. destruct (DataFrame_read_parquet env _ _) as [h r]; cbn.
    apply exit_trace.
Qed.

(** With [use_pyarrow=True] a row cap other than [0] is refused before
    anything is resolved or read. *)
Lemma read_columnar_row_cap_refused (a : Columnar.args) (w : world) (n : Z) :
  Columnar.use_pyarrow a = true ->
  Columnar.n_rows a = Some n ->
  n <> 0 ->
  read_ipc env a w = (w, Raise ValueError_n_rows_with_pyarrow)
  /\ read_parquet env a w = (w, Raise ValueError_n_rows_with_pyarrow).
Proof.
  intros Hpa Hn Hnz. unfold read_ipc, read_parquet. rewrite Hpa, Hn. cbn.
  destruct (Z.eqb_spec n 0); [contradiction |]. split; reflexivity.
Qed.

(** With [use_pyarrow=False] the row cap goes to the native reader. *)
Lemma read_columnar_row_cap_forwarded (a : Columnar.args) w w1 c w2 data :
  Columnar.use_pyarrow a = false ->
  _prepare_file_arg env (Columnar.file a)
    (default [] (Columnar.storage_options a)) w = (w1, Ok c) ->
  enter c w1 = (w2, Ok data) ->
  Columnar.nat_n_rows (native_columnar_args a data) = Columnar.n_rows a
  /\ w_trace (fst (read_ipc env a w))
     = w_trace w2 ++ [Call_DataFrame_read_ipc (native_columnar_args a data)]
  /\ w_trace (fst (read_parquet env a w))
     = w_trace w2 ++ [Call_DataFrame_read_parquet (native_columnar_args a data)].
Proof.
  intros Hpa Hprep Henter. split; [reflexivity |].
  rewrite (read_ipc_run a w w1 c w2 data),
    (read_parquet_run a w w1 c w2 data), Hpa; try rewrite Hpa; auto.
Qed.

End ColumnarReaders.

(** C8 fails for the row cap [0]: with [use_pyarrow=True] and [n_rows=0]
    neither reader refuses the call; the file is resolved and pyarrow reads
    it, without a row limit. *)
Theorem read_columnar_zero_row_cap_accepted :
  let a := columnar_args (FStr "a.bin") true (Some 0) in
  read_ipc sample_env a empty_world
  = ({| w_heap := [];
        w_trace := [Call_prepare_file_arg (FStr "a.bin") [];
                    Call_pa_feather_read_table
                      (pyarrow_columnar_args a (Src (FStr "a.bin")) [])] |},
     Ok (mkDataFrame sample_header 7))
  /\ read_parquet sample_env a empty_world
     = ({| w_heap := [];
           w_trace := [Call_prepare_file_arg (FStr "a.bin") [];
                       Call_pa_parquet_read_table
                         (pyarrow_columnar_args a (Src (FStr "a.bin")) [])] |},
        Ok (mkDataFrame sample_header 7)).
Proof. cbv zeta. split; reflexivity. Qed.

Section ColumnarRowCap.

Variable env : Env.

Lemma sat_columnar_without_row_cap (P : exn -> Prop) (a : Columnar.args) :
  (forall e, resolver_exn e -> P e) ->
  (_PYARROW_AVAILABLE env = false -> forall fn, P (ImportError_pyarrow fn)) ->
  sat (fun _ => True) P (read_ipc env (with_n_rows None a))
  /\ sat (fun _ => True) P (read_parquet env (with_n_rows None a)).
Proof.
  intros HP1 HP2. unfold read_ipc, read_parquet. cbn.
  rewrite andb_false_r.
  split; (apply sat_with_file; auto; intros data;
          destruct (Columnar.use_pyarrow a);
          [ destruct (_PYARROW_AVAILABLE env) eqn:Hav; cbn [negb];
            [ apply sat_bind; [| intros; apply sat_ret]
            | apply sat_raise, HP2; reflexivity ]
          | ]; (apply sat_call; [exact I | intros; apply HP1; exact I])).
Qed.

(** C9, amended: in [read_ipc] and [read_parquet] the check of the row cap
    against [use_pyarrow=True] looks at the truth value of [n_rows]. With
    [n_rows=0] the call is not refused for its row cap and runs exactly as
    the call without a row cap does. When pyarrow is installed, the only
    exceptions it can end with are those of the source resolver and of the
    pyarrow reader, and when the source resolves, the pyarrow reader is
    called, with arguments that do not depend on [n_rows]. *)
Theorem read_columnar_zero_row_cap (a : Columnar.args) (w : world) :
  Columnar.use_pyarrow a = true ->
  Columnar.n_rows a = Some 0 ->
  read_ipc env a w = read_ipc env (with_n_rows None a) w
  /\ read_parquet env a w = read_parquet env (with_n_rows None a) w
  /\ snd (read_ipc env a w) <> Raise ValueError_n_rows_with_pyarrow
  /\ snd (read_parquet env a w) <> Raise ValueError_n_rows_with_pyarrow
  /\ (_PYARROW_AVAILABLE env = true ->
      (forall e, snd (read_ipc env a w) = Raise e -> resolver_exn e)
      /\ (forall e, snd (read_parquet env a w) = Raise e -> resolver_exn e)
      /\ forall w1 c w2 data,
           _prepare_file_arg env (Columnar.file a)
             (default [] (Columnar.storage_options a)) w = (w1, Ok c) ->
           enter c w1 = (w2, Ok data) ->
           w_trace (fst (read_ipc env a w))
           = w_trace w2
             ++ [Call_pa_feather_read_table (pyarrow_columnar_args a data [])]
           /\ w_trace (fst (read_parquet env a w))
              = w_trace w2
                ++ [Call_pa_parquet_read_table
                      (pyarrow_columnar_args a data (Columnar.extra a))]
           /\ forall kw, pyarrow_columnar_args a data kw
                         = pyarrow_columnar_args (with_n_rows None a) data kw).
Proof.
  intros Hpa Hn.
  assert (Columnar.use_pyarrow a && Py.truthy_int (Columnar.n_rows a) = false)
    as Hguard by (rewrite Hpa, Hn; reflexivity).
  assert (read_ipc env a w = read_ipc env (with_n_rows None a) w) as E1.
  { unfold read_ipc. rewrite Hguard. cbn. rewrite andb_false_r, Hpa.
    reflexivity. }
  assert (read_parquet env a w = read_parquet env (with_n_rows None a) w) as E2.
  { unfold read_parquet. rewrite Hguard. cbn. rewrite andb_false_r, Hpa.
    reflexivity. }
  destruct (sat_columnar_without_row_cap
              (fun e => e <> ValueError_n_rows_with_pyarrow) a) as [S1 S2].
  { intros e He. destruct e; try destruct He; discriminate. }
  { intros _ fn. discriminate. }
  split; [exact E1 |]. split; [exact E2 |].
  split; [rewrite E1; intros H; exact (proj2 (S1 w) _ H eq_refl) |].
  split; [rewrite E2; intros H; exact (proj2 (S2 w) _ H eq_refl) |].
  intros Hav.
  destruct (sat_columnar_without_row_cap resolver_exn a) as [R1 R2];
    [auto | congruence |].
  split; [rewrite E1; exact (proj2 (R1 w)) |].
  split; [rewrite E2; exact (proj2 (R2 w)) |].
  intros w1 c w2 data Hprep Henter.
  assert (Columnar.use_pyarrow a && negb (_PYARROW_AVAILABLE env) = false)
    as Hav' by (rewrite Hpa, Hav; reflexivity).
  rewrite (read_ipc_run env a w w1 c w2 data Hguard Hav' Hprep Henter),
    (read_parquet_run env a w w1 c w2 data Hguard Hav' Hprep Henter), Hpa.
  repeat split.
Qed.

(** C10, amended: [read_ipc] and [read_parquet] on an empty [bytes]
    object. They never end with an [InvalidInput] error. The resolver
    hands the object on as it is, through [managed_file]. Unless the call
    is refused for its row cap, or asks for pyarrow where pyarrow is not
    installed, the object is resolved and then given to the reader,
    pyarrow's or the native one, and nothing else is recorded. *)
Theorem read_columnar_empty_bytes (a : Columnar.args) (w : world) :
  Columnar.file a = FBytes EmptyString ->
  (forall e, snd (read_ipc env a w) = Raise e -> kind_of e <> Some InvalidInput)
  /\ (forall e, snd (read_parquet env a w) = Raise e ->
        kind_of e <> Some InvalidInput)
  /\ (forall kw w',
        _prepare_file_arg env (FBytes EmptyString) kw w'
        = ({| w_heap := w_heap w';
              w_trace := w_trace w'
                         ++ [Call_prepare_file_arg (FBytes EmptyString) kw] |},
           Ok (managed_file (FBytes EmptyString))))
  /\ (Columnar.use_pyarrow a && Py.truthy_int (Columnar.n_rows a) = false ->
      Columnar.use_pyarrow a && negb (_PYARROW_AVAILABLE env) = false ->
      let resolved :=
        Call_prepare_file_arg (FBytes EmptyString)
          (default [] (Columnar.storage_options a)) in
      let data := Src (FBytes EmptyString) in
      w_trace (fst (read_ipc env a w))
      = w_trace w
        ++ [resolved;
            if Columnar.use_pyarrow a
            then Call_pa_feather_read_table (pyarrow_columnar_args a data [])
            else Call_DataFrame_read_ipc (native_columnar_args a data)]
      /\ w_trace (fst (read_parquet env a w))
         = w_trace w
           ++ [resolved;
               if Columnar.use_pyarrow a
               then Call_pa_parquet_read_table
                      (pyarrow_columnar_args a data (Columnar.extra a))
               else Call_DataFrame_read_parquet (native_columnar_args a data)]).
Proof.
  intros Hfile.
  assert (forall e, resolver_exn e -> kind_of e <> Some InvalidInput) as Hres.
  { intros e He. destruct e; try destruct He; discriminate. }
  split; [| split; [| split]].
  - apply (sat_read_ipc env (fun _ => True)
             (fun e => kind_of e <> Some InvalidInput));
      auto; intros; discriminate.
  - apply (sat_read_parquet env (fun _ => True)
             (fun e => kind_of e <> Some InvalidInput));
      auto; intros; discriminate.
  - intros kw w'. apply prepare_passed_through. constructor.
  - intros Hn Hav resolved data.
    pose proof (prepare_passed_through env _ _
                  (default [] (Columnar.storage_options a)) w
                  (pass_bytes env EmptyString)) as Hprep.
    rewrite <- Hfile in Hprep at 1.
    rewrite (read_ipc_run env a w _ _ _ data Hn Hav Hprep eq_refl),
      (read_parquet_run env a w _ _ _ data Hn Hav Hprep eq_refl).
    cbn [w_trace]. rewrite <- !app_assoc. split; reflexivity.
Qed.

End ColumnarRowCap.

Lemma read_columnar_zero_row_cap_witness :
  let a := columnar_args (FStr "a.bin") true (Some 0) in
  w_trace (fst (read_ipc sample_env a empty_world))
  = [Call_prepare_file_arg (FStr "a.bin") [];
     Call_pa_feather_read_table
       (pyarrow_columnar_args a (Src (FStr "a.bin")) [])].
Proof.
  exact (proj1 (proj2 (proj2 (proj2 (proj2 (proj2 (proj2
    (read_columnar_zero_row_cap sample_env
       (columnar_args (FStr "a.bin") true (Some 0)) empty_world
       eq_refl eq_refl)))) eq_refl))
    {| w_heap := []; w_trace := [Call_prepare_file_arg (FStr "a.bin") []] |}
    (managed_file (FStr "a.bin"))
    {| w_heap := []; w_trace := [Call_prepare_file_arg (FStr "a.bin") []] |}
    (Src (FStr "a.bin")) eq_refl eq_refl)).
Defined.

(** C9 as stated fails where pyarrow is not installed: the call with
    [use_pyarrow=True] and [n_rows=0] passes the row-cap check and
    resolves its source, and then it ends with the [ImportError]: an error
    is raised and no reader is called. *)
Lemma read_columnar_zero_row_cap_pyarrow_missing :
  let a := columnar_args (FStr "a.bin") true (Some 0) in
  let resolved :=
    {| w_heap := []; w_trace := [Call_prepare_file_arg (FStr "a.bin") []] |} in
  _PYARROW_AVAILABLE (sample_env_with false false) = false
  /\ read_ipc (sample_env_with false false) a empty_world
     = (resolved, Raise (ImportError_pyarrow "read_ipc"))
  /\ read_parquet (sample_env_with false false) a empty_world
     = (resolved, Raise (ImportError_pyarrow "read_parquet")).
Proof. cbv zeta. repeat split. Qed.

Lemma read_columnar_empty_bytes_witness :
  let a := columnar_args (FBytes EmptyString) false None in
  w_trace (fst (read_ipc sample_env a empty_world))
  = [Call_prepare_file_arg (FBytes EmptyString) [];
     Call_DataFrame_read_ipc (native_columnar_args a (Src (FBytes EmptyString)))].
Proof.
  exact (proj1 (proj2 (proj2 (proj2
    (read_columnar_empty_bytes sample_env
       (columnar_args (FBytes EmptyString) false None) empty_world eq_refl)))
    eq_refl eq_refl)).
Defined.

(** C10 as stated fails when the call is refused for its row cap: the
    empty [bytes] object below is neither resolved nor given to a reader,
    the call ends with an [InvalidOptionCombination] error in the world it
    was called in. *)
Lemma read_columnar_empty_bytes_refused :
  let a := columnar_args (FBytes EmptyString) true (Some 5) in
  read_ipc sample_env a empty_world
  = (empty_world, Raise ValueError_n_rows_with_pyarrow)
  /\ read_parquet sample_env a empty_world
     = (empty_world, Raise ValueError_n_rows_with_pyarrow).
Proof. cbv zeta. split; reflexivity. Qed.

(** ** The source resolver: which collaborators it calls *)

Section ResolverCalls.

Variable env : Env.

Lemma forallb_false_exists {A} (f : A -> bool) (l : list A) :
  forallb f l = false -> exists x, x ∈ l /\ f x = false.
Proof.
  induction l as [|x l IH]; cbn; [discriminate |].
  destruct (f x) eqn:E; cbn.
  - intros H. destruct (IH H) as (y & Hy & Hf). exists y. split; [right |]; auto.
  - intros _. exists x. split; [left | exact E].
Qed.

(** X1: the resolver records its own call and then calls at most one
    collaborator. It fetches with urllib only a [str] that starts with
    [http], and only when fsspec is not installed; it opens with fsspec
    only when fsspec is installed, a [str] whose protocol is not [file] or
    a non-empty list with such a path in it, and passes on the storage
    options it was given. *)
Theorem prepare_file_arg_calls (file : file_arg) (kw : kwargs) (w : world) :
  exists rest,
    w_trace (fst (_prepare_file_arg env file kw w))
    = w_trace w ++ Call_prepare_file_arg file kw :: rest
    /\ (length rest <= 1)%nat
    /\ (forall ev, ev ∈ rest -> resolver_event ev)
    /\ (forall p, Call_urlopen p ∈ rest ->
          _WITH_FSSPEC env = false /\ file = FStr p
          /\ Py.startswith p "http" = true)
    /\ (forall u k, Call_fsspec_open u k ∈ rest ->
          _WITH_FSSPEC env = true /\ file = FStr u /\ k = kw
          /\ storage_protocol env u <> "file")
    /\ (forall us k, Call_fsspec_open_files us k ∈ rest ->
          _WITH_FSSPEC env = true /\ file = FList us /\ k = kw
          /\ exists f, f ∈ us /\ storage_protocol env f <> "file").
Proof.
  assert (forall t, t = w_trace w ++ [Call_prepare_file_arg file kw] ->
          exists rest,
            t = w_trace w ++ Call_prepare_file_arg file kw :: rest
            /\ (length rest <= 1)%nat
            /\ (forall ev, ev ∈ rest -> resolver_event ev)
            /\ (forall p, Call_urlopen p ∈ rest ->
                  _WITH_FSSPEC env = false /\ file = FStr p
                  /\ Py.startswith p "http" = true)
            /\ (forall u k, Call_fsspec_open u k ∈ rest ->
                  _WITH_FSSPEC env = true /\ file = FStr u /\ k = kw
                  /\ storage_protocol env u <> "file")
            /\ (forall us k, Call_fsspec_open_files us k ∈ rest ->
                  _WITH_FSSPEC env = true /\ file = FList us /\ k = kw
                  /\ exists f, f ∈ us /\ storage_protocol env f <> "file"))
    as Hnone.
  { intros t Hw'. exists []. split; [exact Hw' |]. split; [cbn; lia |].
    repeat split; intros; exfalso; eapply not_elem_of_nil; eassumption. }
  assert (forall t ev,
            t = w_trace w ++ [Call_prepare_file_arg file kw; ev] ->
            resolver_event ev ->
            (forall p, ev = Call_urlopen p ->
               _WITH_FSSPEC env = false /\ file = FStr p
               /\ Py.startswith p "http" = true) ->
            (forall u k, ev = Call_fsspec_open u k ->
               _WITH_FSSPEC env = true /\ file = FStr u /\ k = kw
               /\ storage_protocol env u <> "file") ->
            (forall us k, ev = Call_fsspec_open_files us k ->
               _WITH_FSSPEC env = true /\ file = FList us /\ k = kw
               /\ exists f, f ∈ us /\ storage_protocol env f <> "file") ->
            exists rest,
              t = w_trace w ++ Call_prepare_file_arg file kw :: rest
              /\ (length rest <= 1)%nat
              /\ (forall ev, ev ∈ rest -> resolver_event ev)
              /\ (forall p, Call_urlopen p ∈ rest ->
                    _WITH_FSSPEC env = false /\ file = FStr p
                    /\ Py.startswith p "http" = true)
              /\ (forall u k, Call_fsspec_open u k ∈ rest ->
                    _WITH_FSSPEC env = true /\ file = FStr u /\ k = kw
                    /\ storage_protocol env u <> "file")
              /\ (forall us k, Call_fsspec_open_files us k ∈ rest ->
                    _WITH_FSSPEC env = true /\ file = FList us /\ k = kw
                    /\ exists f, f ∈ us /\ storage_protocol env f <> "file"))
    as Hone.
  { intros t ev Hw' Hev H1 H2 H3. exists [ev]. split; [exact Hw' |].
    split; [cbn; lia |].
    repeat split; intros;
      match goal with
      | H : _ ∈ [_] |- _ => apply list_elem_of_singleton in H; subst
      end; first [exact Hev | eapply H1; reflexivity | eapply H2; reflexivity
                  | eapply H3; reflexivity]. }
  unfold _prepare_file_arg, _process_http_file, bind, emit, call, ret,
    StringIO_read, BytesIO_new.
  destruct file as [h|h|p|s|l|b|h]; cbn.
  - apply Hnone.
    destruct (w_heap w !! h) as [st|]; [destruct (s_closed st) |]; reflexivity.
  - apply Hnone. reflexivity.
  - apply Hnone. reflexivity.
  - destruct (_WITH_FSSPEC env) eqn:Hf; cbn.
    + destruct (String.eqb_spec (storage_protocol env s) "file") as [Hp|Hp];
        cbn; [apply Hnone; reflexivity |].
      apply (Hone _ (Call_fsspec_open s kw)).
      * destruct (fsspec_open env s kw (w_heap w)) as [h1 [[]|msg]]; cbn;
          rewrite <- app_assoc; reflexivity.
      * exact I.
      * discriminate.
      * intros u k [= <- <-]. auto.
      * discriminate.
    + destruct (Py.startswith s "http") eqn:Hs; cbn;
        [| apply Hnone; reflexivity].
      apply (Hone _ (Call_urlopen s)).
      * destruct (urlopen_read env s (w_heap w)) as [h1 [b|msg]]; cbn;
          rewrite <- app_assoc; reflexivity.
      * exact I.
      * intros p [= <-]. auto.
      * discriminate.
      * discriminate.
  - destruct l as [|f0 l]; cbn; [apply Hnone; reflexivity |].
    destruct (_WITH_FSSPEC env) eqn:Hf; cbn; [| apply Hnone; reflexivity].
    destruct (forallb (fun f => String.eqb (storage_protocol env f) "file")
                (f0 :: l)) eqn:Hall; cbn in Hall |- *; rewrite Hall; cbn.
    + apply Hnone. reflexivity.
    + apply (Hone _ (Call_fsspec_open_files (f0 :: l) kw)).
      * destruct (fsspec_open_files env (f0 :: l) kw (w_heap w))
          as [h1 [[]|msg]]; cbn; rewrite <- app_assoc; reflexivity.
      * exact I.
      * discriminate.
      * discriminate.
      * intros us k [= <- <-].
        destruct (forallb_false_exists
                    (fun f => String.eqb (storage_protocol env f) "file")
                    (f0 :: l) Hall) as (f & Hin & Hne).
        apply String.eqb_neq in Hne. eauto 6.
  - apply Hnone. reflexivity.
  - apply Hnone. reflexivity.
Qed.

End ResolverCalls.

(** ** The source resolver: paths, buffers and URLs *)

Section ResolverSources.

Variable env : Env.

(** X2: a [Path] is never fetched or opened: it reaches the reader as its
    string, with the heap as it was, also when the same text given as a
    [str] is fetched with urllib (no fsspec, text starting with [http]) or
    opened with fsspec (fsspec installed, protocol other than [file]). *)
Theorem prepare_file_arg_path_not_fetched (p : string) (kw : kwargs) (w : world) :
  (_WITH_FSSPEC env = false /\ Py.startswith p "http" = true)
  \/ (_WITH_FSSPEC env = true /\ storage_protocol env p <> "file") ->
  _prepare_file_arg env (FPath p) kw w
  = ({| w_heap := w_heap w;
        w_trace := w_trace w ++ [Call_prepare_file_arg (FPath p) kw] |},
     Ok (managed_file (FStr p)))
  /\ w_trace (fst (_prepare_file_arg env (FStr p) kw w))
     = w_trace w
       ++ [Call_prepare_file_arg (FStr p) kw;
           if _WITH_FSSPEC env then Call_fsspec_open p kw else Call_urlopen p]
  /\ snd (_prepare_file_arg env (FStr p) kw w) <> Ok (managed_file (FStr p)).
Proof.
  intros H. split; [reflexivity |].
  unfold _prepare_file_arg, _process_http_file, bind, emit, call, ret,
    BytesIO_new; cbn.
  destruct H as [[Hf Hs] | [Hf Hp]]; rewrite Hf; cbn.
  - rewrite Hs. cbn.
    destruct (urlopen_read env p (w_heap w)) as [h1 [b|msg]]; cbn;
      rewrite <- app_assoc; (split; [reflexivity |]); intros H; inversion H.
  - apply String.eqb_neq in Hp. rewrite Hp. cbn.
    destruct (fsspec_open env p kw (w_heap w)) as [h1 [[]|msg]]; cbn;
      rewrite <- app_assoc; (split; [reflexivity |]); intros H; inversion H.
Qed.

Lemma prepare_StringIO_run (h : handle) (s : stream) (kw : kwargs) (w : world) :
  w_heap w !! h = Some s ->
  s_closed s = false ->
  _prepare_file_arg env (FStringIO h) kw w
  = ({| w_heap :=
          <[h := mkStream (s_content s)
                   (Nat.max (s_pos s) (Py.len (s_content s))) false]>
            (w_heap w)
          ++ [mkStream (Py.str_drop (s_pos s) (s_content s)) 0 false];
        w_trace := w_trace w ++ [Call_prepare_file_arg (FStringIO h) kw] |},
     Ok (BytesIO_itself (length (w_heap w)))).
Proof.
  intros Hs Hopen.
  unfold _prepare_file_arg, bind, emit, ret, StringIO_read, BytesIO_new.
  cbn. rewrite Hs, Hopen. cbn. unfold heap, handle in *.
  rewrite length_insert. reflexivity.
Qed.

(** X3: resolving an open [StringIO] makes a new [BytesIO] at a fresh
    handle, holding the UTF-8 bytes of the text from the current position
    of the [StringIO] (counted in characters) to its end; the [StringIO]
    stays open with its position at the end of the text, or where it was
    when that is past the end, and no other stream is touched. *)
Theorem prepare_file_arg_StringIO (h : handle) (s : stream) (kw : kwargs)
  (w : world) :
  w_heap w !! h = Some s ->
  s_closed s = false ->
  let w' := fst (_prepare_file_arg env (FStringIO h) kw w) in
  let fresh := length (w_heap w) in
  snd (_prepare_file_arg env (FStringIO h) kw w) = Ok (BytesIO_itself fresh)
  /\ w_heap w' !! fresh
     = Some (mkStream (Py.str_drop (s_pos s) (s_content s)) 0 false)
  /\ w_heap w' !! h
     = Some (mkStream (s_content s)
               (Nat.max (s_pos s) (Py.len (s_content s))) false)
  /\ (forall h', h' <> h -> h' <> fresh -> w_heap w' !! h' = w_heap w !! h')
  /\ w_trace w' = w_trace w ++ [Call_prepare_file_arg (FStringIO h) kw].
Proof.
  intros Hs Hopen w' fresh. subst w' fresh.
  pose proof (lookup_lt_Some _ _ _ Hs) as Hlt.
  rewrite (prepare_StringIO_run h s kw w Hs Hopen). cbn [fst snd w_heap w_trace].
  unfold heap, handle in *.
  split; [reflexivity |]. split; [| split; [| split; [| reflexivity]]].
  - rewrite lookup_app_r by (rewrite length_insert; lia).
    rewrite length_insert, Nat.sub_diag. reflexivity.
  - rewrite lookup_app_l by (rewrite length_insert; exact Hlt).
    apply list_lookup_insert_eq. exact Hlt.
  - intros h' Hne Hnf.
    destruct (Nat.lt_ge_cases h' (length (w_heap w))) as [Hin|Hout].
    + rewrite lookup_app_l by (rewrite length_insert; exact Hin).
      apply list_lookup_insert_ne. congruence.
    + rewrite (lookup_ge_None_2 (w_heap w)) by exact Hout.
      apply lookup_ge_None_2. rewrite length_app, length_insert. cbn. lia.
Qed.

(** X4: closed buffers. Resolving a closed [StringIO] fails with the
    [ValueError] of the read and makes no buffer; a closed [BytesIO] is
    resolved, but entering the [with] block fails, so the body (the call
    of a reader) never runs. In both cases the world only gains the record
    of the resolver's call. *)
Theorem with_file_closed_buffer {A} (h : handle) (s : stream) (kw : kwargs)
  (body : source -> M A) (w : world) :
  w_heap w !! h = Some s ->
  s_closed s = true ->
  with_file env (FStringIO h) kw body w
  = ({| w_heap := w_heap w;
        w_trace := w_trace w ++ [Call_prepare_file_arg (FStringIO h) kw] |},
     Raise ValueError_closed_file)
  /\ with_file env (FBytesIO h) kw body w
     = ({| w_heap := w_heap w;
           w_trace := w_trace w ++ [Call_prepare_file_arg (FBytesIO h) kw] |},
        Raise ValueError_closed_file).
Proof.
  intros Hs Hc.
  unfold with_file, _prepare_file_arg, bind, emit, ret, StringIO_read, with_.
  cbn. rewrite Hs, Hc. split; reflexivity.
Qed.

Lemma close_closes (h : handle) (w : world) (s : stream) :
  w_heap (fst (close h w)) !! h = Some s -> s_closed s = true.
Proof.
  unfold close; cbn. unfold heap, handle in *.
  rewrite list_lookup_alter, decide_True by reflexivity.
  intros H. apply fmap_Some in H as (s0 & _ & ->). reflexivity.
Qed.

(** X5: a URL read without fsspec. If urllib fails, its exception comes
    out, no buffer is made and the body never runs. If it returns the
    bytes [b], the body runs on a new [BytesIO] holding [b] at a fresh
    handle, and that buffer is closed when the block is left, whether the
    body returned or raised. *)
Theorem with_file_url {A} (url : string) (kw : kwargs) (body : source -> M A)
  (w : world) :
  _WITH_FSSPEC env = false ->
  Py.startswith url "http" = true ->
  let trace := w_trace w ++ [Call_prepare_file_arg (FStr url) kw;
                             Call_urlopen url] in
  match urlopen_read env url (w_heap w) with
  | (h1, Fails msg) =>
      with_file env (FStr url) kw body w
      = ({| w_heap := h1; w_trace := trace |}, Raise (External msg))
  | (h1, Returns b) =>
      let fresh := length h1 in
      let run :=
        body (Src (FBytesIO fresh))
          {| w_heap := h1 ++ [mkStream b 0 false]; w_trace := trace |} in
      with_file env (FStr url) kw body w = (fst (close fresh (fst run)), snd run)
      /\ forall s, w_heap (fst (with_file env (FStr url) kw body w)) !! fresh
                   = Some s -> s_closed s = true
  end.
Proof.
  intros Hf Hs trace. subst trace.
  unfold with_file, _prepare_file_arg, _process_http_file, bind, emit, call,
    ret, BytesIO_new, with_. cbn. rewrite Hf, Hs. cbn.
  destruct (urlopen_read env url (w_heap w)) as [h1 [b|msg]]; cbn.
  - rewrite <- app_assoc. cbn. unfold heap, handle in *.
    rewrite lookup_app_r, Nat.sub_diag by lia. cbn.
    destruct (body _ _) as [w2 r]. cbn. split; [reflexivity |].
    intros s. apply close_closes.
  - rewrite <- app_assoc. reflexivity.
Qed.

(** X6: a text buffer is read through a [BytesIO] of the resolver's own,
    and the resolver releases it: the body runs on the new buffer, and
    when the block is left that buffer is closed, whether the body
    returned or raised. *)
Theorem with_file_StringIO {A} (h : handle) (s : stream) (kw : kwargs)
  (body : source -> M A) (w : world) :
  w_heap w !! h = Some s ->
  s_closed s = false ->
  let fresh := length (w_heap w) in
  let run := body (Src (FBytesIO fresh))
               (fst (_prepare_file_arg env (FStringIO h) kw w)) in
  with_file env (FStringIO h) kw body w = (fst (close fresh (fst run)), snd run)
  /\ forall s', w_heap (fst (with_file env (FStringIO h) kw body w)) !! fresh
                = Some s' -> s_closed s' = true.
Proof.
  intros Hs Hopen fresh run.
  assert (with_file env (FStringIO h) kw body w
          = (fst (close fresh (fst run)), snd run)) as E.
  { subst run fresh. unfold with_file, bind.
    rewrite (prepare_StringIO_run h s kw w Hs Hopen). cbn [fst].
    unfold with_. cbn [enter w_heap]. unfold heap, handle in *.
    rewrite lookup_app_r by (rewrite length_insert; lia).
    rewrite length_insert, Nat.sub_diag. cbn.
    destruct (body _ _) as [w2 r2]. reflexivity. }
  split; [exact E |]. rewrite E. intros s'. apply close_closes.
Qed.

(** X7: lists of paths. An empty list is handed on as it is, with or
    without fsspec. With fsspec installed, one path of the list with a
    protocol other than [file] sends the whole list, local paths included,
    to [fsspec.open_files], with the storage options. *)
Theorem prepare_file_arg_list (l : list string) (kw : kwargs) (w : world) :
  _prepare_file_arg env (FList []) kw w
  = ({| w_heap := w_heap w;
        w_trace := w_trace w ++ [Call_prepare_file_arg (FList []) kw] |},
     Ok (managed_file (FList [])))
  /\ (_WITH_FSSPEC env = true ->
      (exists f, f ∈ l /\ storage_protocol env f <> "file") ->
      w_trace (fst (_prepare_file_arg env (FList l) kw w))
      = w_trace w ++ [Call_prepare_file_arg (FList l) kw;
                      Call_fsspec_open_files l kw]
      /\ forall c, snd (_prepare_file_arg env (FList l) kw w) = Ok c ->
                   c = OpenFiles l kw).
Proof.
  split; [reflexivity |]. intros Hf (f & Hin & Hne).
  assert (forallb (fun f => String.eqb (storage_protocol env f) "file") l
          = false) as Hall.
  { destruct (forallb _ l) eqn:E; [| reflexivity].
    rewrite forallb_forall in E. apply String.eqb_neq in Hne.
    rewrite E in Hne by (apply list_elem_of_In; exact Hin). discriminate. }
  destruct l as [|f0 l]; [inversion Hin |].
  unfold _prepare_file_arg, bind, emit, call, ret. cbn -[forallb].
  rewrite Hf, Hall. cbn.
  destruct (fsspec_open_files env (f0 :: l) kw (w_heap w)) as [h1 [[]|msg]];
    cbn; rewrite <- app_assoc; split; try reflexivity.
  - intros c [= <-]. reflexivity.
  - discriminate.
Qed.

End ResolverSources.

Lemma prepare_file_arg_path_not_fetched_witness :
  snd (_prepare_file_arg sample_env (FPath "http:/h/a.csv") [] empty_world)
  = Ok (managed_file (FStr "http:/h/a.csv"))
  /\ w_trace (fst (_prepare_file_arg sample_env (FStr "http:/h/a.csv") []
                     empty_world))
     = [Call_prepare_file_arg (FStr "http:/h/a.csv") [];
        Call_urlopen "http:/h/a.csv"].
Proof.
  split.
  - exact (f_equal snd (proj1 (prepare_file_arg_path_not_fetched sample_env
      "http:/h/a.csv" [] empty_world (or_introl (conj eq_refl eq_refl))))).
  - exact (proj1 (proj2 (prepare_file_arg_path_not_fetched sample_env
      "http:/h/a.csv" [] empty_world (or_introl (conj eq_refl eq_refl))))).
Defined.

Lemma prepare_file_arg_StringIO_witness :
  w_heap (fst (_prepare_file_arg sample_env (FStringIO 0%nat) [] text_world))
    !! 2%nat
  = Some (mkStream "b,c" 0 false)
  /\ w_heap (fst (_prepare_file_arg sample_env (FStringIO 0%nat) []
                    {| w_heap := [mkStream "abc" 10 false]; w_trace := [] |}))
       !! 0%nat
     = Some (mkStream "abc" 10 false).
Proof.
  split.
  - exact (proj1 (proj2 (prepare_file_arg_StringIO sample_env 0%nat
      (mkStream "a,b,c" 2 false) [] text_world eq_refl eq_refl))).
  - exact (proj1 (proj2 (proj2 (prepare_file_arg_StringIO sample_env 0%nat
      (mkStream "abc" 10 false) []
      {| w_heap := [mkStream "abc" 10 false]; w_trace := [] |}
      eq_refl eq_refl)))).
Defined.

Lemma with_file_closed_buffer_witness :
  with_file sample_env (FBytesIO 1%nat) [] (fun data => ret data) text_world
  = ({| w_heap := w_heap text_world;
        w_trace := [Call_prepare_file_arg (FBytesIO 1%nat) []] |},
     Raise ValueError_closed_file).
Proof.
  exact (proj2 (with_file_closed_buffer sample_env 1%nat
    (mkStream "a,b,c" 0 true) [] (fun data => ret data) text_world
    eq_refl eq_refl)).
Defined.

Lemma with_file_url_witness :
  with_file (sample_env_with true false) (FStr "http://h/a.csv") []
    (fun data => ret data) empty_world
  = ({| w_heap := [mkStream "x,y" 0 true];
        w_trace := [Call_prepare_file_arg (FStr "http://h/a.csv") [];
                    Call_urlopen "http://h/a.csv"] |},
     Ok (Src (FBytesIO 0%nat))).
Proof.
  exact (proj1 (with_file_url (sample_env_with true false) "http://h/a.csv" []
    (fun data => ret data) empty_world eq_refl eq_refl)).
Defined.

Lemma with_file_StringIO_witness :
  with_file sample_env (FStringIO 0%nat) [] (fun data => ret data) text_world
  = ({| w_heap := [mkStream "a,b,c" 5 false; mkStream "a,b,c" 0 true;
                   mkStream "b,c" 0 true];
        w_trace := [Call_prepare_file_arg (FStringIO 0%nat) []] |},
     Ok (Src (FBytesIO 2%nat))).
Proof.
  exact (proj1 (with_file_StringIO sample_env 0%nat (mkStream "a,b,c" 2 false)
    [] (fun data => ret data) text_world eq_refl eq_refl)).
Defined.

Lemma prepare_file_arg_list_witness :
  w_trace (fst (_prepare_file_arg (sample_env_with true true)
                  (FList ["a.parquet"; "s3://b/c.parquet"]) [] empty_world))
  = [Call_prepare_file_arg (FList ["a.parquet"; "s3://b/c.parquet"]) [];
     Call_fsspec_open_files ["a.parquet"; "s3://b/c.parquet"] []].
Proof.
  refine (proj1 (proj2 (prepare_file_arg_list (sample_env_with true true)
    ["a.parquet"; "s3://b/c.parquet"] [] empty_world) eq_refl _)).
  exists "s3://b/c.parquet". split.
  - apply list_elem_of_In. cbn. auto.
  - discriminate.
Defined.

(** ** The renaming loop *)

Section RenamingLoop.

Implicit Types (cols L : list string).

Lemma fold_checked_None (l : list (nat * string)) :
  fold_left
    (fun acc ix =>
       match acc with
       | Some cols => setitem cols (fst ix) (snd ix)
       | None => None
       end) l None
  = None.
Proof. induction l as [|ix l IH]; [reflexivity | exact IH]. Qed.

Lemma assign_checked_in_range L : forall i cols,
  (i + length L <= length cols)%nat ->
  fold_left
    (fun acc ix =>
       match acc with
       | Some cols => setitem cols (fst ix) (snd ix)
       | None => None
       end) (enumerate_from i L) (Some cols)
  = Some (fold_left (fun cols ix => <[fst ix := snd ix]> cols)
            (enumerate_from i L) cols).
Proof.
  induction L as [|name L IH]; intros i cols Hle;
    cbn [enumerate_from fold_left fst snd]; [reflexivity |].
  cbn [length] in Hle. unfold setitem at 2.
  destruct (Nat.ltb_spec i (length cols)); [| lia].
  apply IH. rewrite length_insert. lia.
Qed.

Lemma assign_checked_out_of_range L : forall i cols,
  L <> [] ->
  (length cols < i + length L)%nat ->
  fold_left
    (fun acc ix =>
       match acc with
       | Some cols => setitem cols (fst ix) (snd ix)
       | None => None
       end) (enumerate_from i L) (Some cols)
  = None.
Proof.
  induction L as [|name L IH]; intros i cols Hne Hlt; [congruence |].
  cbn [enumerate_from fold_left fst snd]. cbn [length] in Hlt.
  unfold setitem at 2.
  destruct (Nat.ltb_spec i (length cols)); [| apply fold_checked_None].
  destruct L as [|name' L]; [cbn in Hlt; lia |].
  apply IH; [discriminate |]. rewrite length_insert. cbn [length] in *. lia.
Qed.

(** X8: the loop of [update_columns] never raises [IndexError]. It runs
    only when the rename list is shorter than the table is wide; every
    assignment [cols[i] = name] is then in range and the loop ends with
    the new names followed by the old names of the remaining columns.
    Without that guard a rename list longer than [cols] would fail. *)
Theorem update_columns_loop_in_range (df : DataFrame) L :
  ((length L <? width df)%nat = true ->
   assign_names_checked (columns df) L
   = Some (L ++ drop (length L) (columns df)))
  /\ ((length (columns df) < length L)%nat ->
      assign_names_checked (columns df) L = None).
Proof.
  unfold assign_names_checked, enumerate, width. split.
  - intros Hlt. apply Nat.ltb_lt in Hlt.
    rewrite assign_checked_in_range by (cbn; lia).
    f_equal. apply (assign_names_shorter (columns df) L). lia.
  - intros Hlt. apply assign_checked_out_of_range; [| cbn; lia].
    destruct L; [cbn in Hlt; lia | discriminate].
Qed.

(** X9: the loop as an operation on the list of names. It keeps the
    number of names; renaming the leading columns to the names they have
    changes nothing; and a rename after a rename is one rename, in which
    the later list wins on the positions it covers. *)
Theorem assign_names_compose cols (L1 L2 : list string) (n : nat) :
  (length L2 <= length L1)%nat ->
  (length L1 <= length cols)%nat ->
  length (assign_names cols L1) = length cols
  /\ assign_names cols (take n cols) = cols
  /\ assign_names (assign_names cols L1) L2
     = assign_names cols (L2 ++ drop (length L2) L1)
  /\ assign_names (assign_names cols L1) L1 = assign_names cols L1.
Proof.
  intros H21 H1c.
  assert (length (assign_names cols L1) = length cols) as Hlen.
  { rewrite assign_names_shorter, length_app, length_drop by lia. lia. }
  assert (assign_names (assign_names cols L1) L2
          = assign_names cols (L2 ++ drop (length L2) L1)) as Hcomp.
  { rewrite (assign_names_shorter (assign_names cols L1) L2) by lia.
    rewrite (assign_names_shorter cols L1) by lia.
    rewrite (assign_names_shorter cols (L2 ++ _))
      by (rewrite length_app, length_drop; lia).
    rewrite drop_app_le by lia.
    rewrite length_app, length_drop, <- app_assoc.
    do 3 f_equal. lia. }
  split; [exact Hlen |]. split; [| split; [exact Hcomp |]].
  - rewrite assign_names_shorter by (rewrite length_take; lia).
    rewrite length_take.
    destruct (Nat.le_ge_cases n (length cols)) as [Hn|Hn].
    + rewrite Nat.min_l by lia. apply take_drop.
    + rewrite Nat.min_r, take_ge, drop_all, app_nil_r by lia. reflexivity.
  - rewrite (assign_names_shorter (assign_names cols L1) L1) by lia.
    rewrite (assign_names_shorter cols L1) by lia.
    rewrite drop_app_length. reflexivity.
Qed.

End RenamingLoop.

Lemma update_columns_loop_in_range_witness :
  assign_names_checked ["a"; "b"; "c"] ["x"; "y"] = Some ["x"; "y"; "c"]
  /\ assign_names_checked ["a"] ["x"; "y"] = None.
Proof.
  split.
  - exact (proj1 (update_columns_loop_in_range
                    (mkDataFrame ["a"; "b"; "c"] 7) ["x"; "y"]) eq_refl).
  - exact (proj2 (update_columns_loop_in_range
                    (mkDataFrame ["a"] 7) ["x"; "y"]) ltac:(cbn; lia)).
Defined.

Lemma assign_names_compose_witness :
  assign_names (assign_names ["a"; "b"; "c"] ["x"; "y"]) ["z"]
  = assign_names ["a"; "b"; "c"] ["z"; "y"].
Proof.
  exact (proj1 (proj2 (proj2 (assign_names_compose ["a"; "b"; "c"]
    ["x"; "y"] ["z"] 0 ltac:(cbn; lia) ltac:(cbn; lia))))).
Defined.

(** ** [read_csv]: the choice of the reader *)

Section CsvStrategy.

Variable env : Env.

(** X10: [read_csv] with [use_pyarrow=True] where pyarrow is not
    installed fails with the [ImportError] before anything is resolved,
    also when an option would have sent the read to the native reader
    anyway. Only an empty [bytes] input and a header-less selection
    without the prefix are reported first. *)
Theorem read_csv_pyarrow_missing (a : Csv.args) (w : world) :
  _PYARROW_AVAILABLE env = false ->
  Csv.use_pyarrow a = true ->
  is_empty_bytes (Csv.file a) = false ->
  check_synthetic_names a = Ok tt ->
  read_csv env a w = (w, Raise (ImportError_pyarrow "read_csv"))
  /\ kind_of (ImportError_pyarrow "read_csv") = Some MissingOptionalDependency.
Proof.
  intros Hav Hpa Hb Hcheck. split; [| reflexivity].
  unfold read_csv, bind, lift. rewrite Hb, Hcheck, Hav, Hpa. reflexivity.
Qed.

Lemma reconcile_dtypes_first_check_only (a : Csv.args) :
  reconcile_dtypes a <> Raise ValueError_more_new_than_projected.
Proof.
  unfold reconcile_dtypes, rbind.
  repeat (case_inner; cbn -[Dict.get omap take]); discriminate.
Qed.

(** X11: a call of [read_csv] uses one reader, never both. The pyarrow
    reader is called only when pyarrow is installed and every condition of
    the pyarrow strategy holds; the native reader only when one of them
    fails; and the readers of the other formats are never called. *)
Theorem read_csv_one_reader (a : Csv.args) (w : world) :
  extends
    (fun ev =>
       match ev with
       | Call_pa_csv_read_csv _ =>
           pyarrow_eligible a = true /\ _PYARROW_AVAILABLE env = true
       | Call_DataFrame_read_csv _ => pyarrow_eligible a = false
       | _ => resolver_event ev
       end)
    w (fst (read_csv env a w))
  /\ forall evs pa na,
       w_trace (fst (read_csv env a w)) = w_trace w ++ evs ->
       Call_pa_csv_read_csv pa ∈ evs ->
       Call_DataFrame_read_csv na ∈ evs -> False.
Proof.
  set (Pev := fun ev =>
       match ev with
       | Call_pa_csv_read_csv _ =>
           pyarrow_eligible a = true /\ _PYARROW_AVAILABLE env = true
       | Call_DataFrame_read_csv _ => pyarrow_eligible a = false
       | _ => resolver_event ev
       end).
  assert (forall ev, resolver_event ev -> Pev ev) as Hres
    by (intros ev Hev; destruct ev; try destruct Hev; exact I).
  assert (sat Pev (fun _ => True) (read_csv env a)) as Hsat.
  { unfold read_csv.
    destruct (is_empty_bytes _); [apply sat_raise; exact I |].
    apply sat_bind; [apply sat_lift; auto | intros _].
    destruct (Csv.use_pyarrow a && negb (_PYARROW_AVAILABLE env)) eqn:Hg;
      [apply sat_raise; exact I |].
    destruct (pyarrow_eligible a) eqn:Hel.
    - apply sat_read_csv_pyarrow; auto. intros pa. split; [reflexivity |].
      unfold pyarrow_eligible in Hel.
      destruct (Csv.use_pyarrow a); [| discriminate].
      destruct (_PYARROW_AVAILABLE env); [reflexivity | discriminate].
    - apply sat_read_csv_native; auto. intros na. reflexivity. }
  split; [apply Hsat |].
  intros evs pa na Hevs Hpa Hna.
  destruct (proj1 (Hsat w)) as (evs' & Heq & Hall).
  rewrite Hevs in Heq. apply app_inv_head in Heq. subst evs'.
  rewrite Forall_forall in Hall.
  destruct (Hall _ Hpa) as [Hel _]. pose proof (Hall _ Hna) as Hnel.
  cbn in Hnel. congruence.
Qed.

(** X12: the second length check of the reconciler, whose message speaks
    of projected columns, can never fire: it sits in the branch taken when
    [columns] is empty or absent and asks first whether [columns] is
    non-empty. No call of [read_csv] ends with that exception. *)
Theorem read_csv_projected_check_unreachable (a : Csv.args) (w : world) :
  reconcile_dtypes a <> Raise ValueError_more_new_than_projected
  /\ snd (read_csv env a w) <> Raise ValueError_more_new_than_projected.
Proof.
  split; [apply reconcile_dtypes_first_check_only |].
  assert (sat (fun _ => True)
              (fun e => e <> ValueError_more_new_than_projected)
              (read_csv env a)) as Hsat.
  { assert (forall e, resolver_exn e -> e <> ValueError_more_new_than_projected)
      as Hres by (intros e He; destruct e; try destruct He; discriminate).
    unfold read_csv.
    destruct (is_empty_bytes _); [apply sat_raise; discriminate |].
    apply sat_bind; [| intros _].
    { apply sat_lift. intros e He.
      rewrite (check_synthetic_names_raises a e He). discriminate. }
    destruct (_ && _); [apply sat_raise; discriminate |].
    destruct (pyarrow_eligible a).
    - apply sat_read_csv_pyarrow; auto; intros; discriminate.
    - unfold read_csv_native.
      apply sat_bind; [| intros dt; apply sat_bind;
                         [| intros df; apply sat_renamed; discriminate]].
      + apply sat_lift. intros e He Heq. subst e.
        exact (reconcile_dtypes_first_check_only a He).
      + apply sat_with_file; auto. intros data.
        apply sat_call; [exact I | intros; discriminate]. }
  intros H. exact (proj2 (Hsat w) _ H eq_refl).
Qed.

End CsvStrategy.

Lemma read_csv_pyarrow_missing_witness :
  read_csv (sample_env_with false false)
    (csv_call (FStr "a.csv") true None None None None true (Some 5) false)
    empty_world
  = (empty_world, Raise (ImportError_pyarrow "read_csv")).
Proof.
  exact (proj1 (read_csv_pyarrow_missing (sample_env_with false false)
    (csv_call (FStr "a.csv") true None None None None true (Some 5) false)
    empty_world eq_refl eq_refl eq_refl eq_refl)).
Defined.

(** ** [read_csv]: dtype overrides for files without a selection *)

Section CsvReconcileRules.

Lemma synthetic_names_lookup (n i : nat) :
  (i < n)%nat ->
  synthetic_names n !! i = Some ("column_" +:+ Py.str (Z.of_nat i + 1)).
Proof.
  intros Hi. unfold synthetic_names, range.
  replace (n + 1 - 1)%nat with n by lia.
  rewrite !list_lookup_fmap, lookup_seq_lt by exact Hi. cbn.
  do 3 f_equal. lia.
Qed.

(** X13: the second rule of the reconciler. For a header-less file read
    without a column selection, a non-empty rename list [L] and a
    non-empty dtype dict, the dict is re-keyed by the synthetic names:
    with distinct new names, the key [L[i]] becomes [column_<i+1>] when no
    projection is given and [column_<P[i]+1>] when the projection [P] is
    given; a key outside [L] stays. *)
Theorem reconcile_dtypes_headerless (a : Csv.args) (L : list string)
  (p : string * DataType) (d : Dict.t DataType) :
  Csv.has_header a = false ->
  Py.truthy (Csv.columns a) = false ->
  Csv.new_columns a = Some L ->
  L <> [] ->
  Csv.dtypes a = Some (DtDict (p :: d)) ->
  let current :=
    if Py.truthy (Csv.projection a)
    then map (fun column_idx => "column_" +:+ Py.str (column_idx + 1))
           (default [] (Csv.projection a))
    else synthetic_names (length L) in
  let m := new_to_current L current in
  reconcile_dtypes a = Ok (Some (DtDict (rekey m (p :: d))))
  /\ (NoDup L -> forall i k, L !! i = Some k ->
        (Py.truthy (Csv.projection a) = false ->
         Dict.get_default m k k = "column_" +:+ Py.str (Z.of_nat i + 1))
        /\ (forall P idx, Csv.projection a = Some P -> P !! i = Some idx ->
              Dict.get_default m k k = "column_" +:+ Py.str (idx + 1)))
  /\ (forall k, k ∉ L -> Dict.get_default m k k = k).
Proof.
  intros Hh Hc HL Hne Hd current m.
  assert (Py.truthy (Csv.new_columns a) = true) as HtL
    by (rewrite HL; destruct L; [congruence | reflexivity]).
  split; [| split].
  - unfold reconcile_dtypes. rewrite Hd, HtL, Hc, Hh, HL.
    cbn -[synthetic_names new_to_current rekey].
    subst m current.
    destruct (Py.truthy (Csv.projection a)) eqn:Hp;
      cbn -[synthetic_names new_to_current rekey].
    + destruct (Csv.projection a) as [[|idx P]|]; try discriminate.
      reflexivity.
    + destruct (synthetic_names (length L)) eqn:E; [| reflexivity].
      destruct L; [congruence |].
      pose proof (synthetic_names_lookup (length (s :: L)) 0
                    ltac:(cbn; lia)) as H0.
      rewrite E in H0. discriminate.
  - intros Hnd i k Hi. split.
    + intros Hp. subst m current. rewrite Hp.
      eapply new_to_current_lookup; eauto.
      apply synthetic_names_lookup. eapply lookup_lt_Some; exact Hi.
    + intros P idx HP Hidx. subst m current. rewrite HP in *.
      destruct P as [|idx0 P]; [discriminate |].
      cbn [Py.truthy default from_option id].
      eapply new_to_current_lookup; eauto.
      rewrite list_lookup_fmap, Hidx. reflexivity.
  - intros k. apply new_to_current_other.
Qed.

Lemma omap_length_le {A B} (f : A -> option B) (l : list A) :
  (length (omap f l) <= length l)%nat.
Proof.
  induction l as [|x l IH]; cbn; [lia |]. destruct (f x); cbn; lia.
Qed.

Lemma omap_length_full {A B} (f : A -> option B) (l : list A) :
  length (omap f l) = length l <-> Forall (fun x => is_Some (f x)) l.
Proof.
  induction l as [|x l IH]; cbn.
  - split; [constructor | reflexivity].
  - pose proof (omap_length_le f l) as Hle. destruct (f x) eqn:E; cbn.
    + split.
      * intros [= H]. constructor; [rewrite E; eauto | apply IH, H].
      * intros H. inversion H; subst. f_equal. apply IH. assumption.
    + split; [lia |].
      intros H. inversion H as [|? ? [? Hx] ?]; subst. congruence.
Qed.

Lemma mem_keys {V} (d : Dict.t V) (k : string) :
  Dict.mem d k = true <-> k ∈ Dict.keys d.
Proof.
  unfold Dict.mem, Dict.keys. split.
  - destruct (Dict.get d k) eqn:E; [| discriminate]. intros _.
    apply get_elem_of in E. apply list_elem_of_fmap. exists (k, v). auto.
  - intros H. destruct (get_is_Some d k H) as [v ->]. reflexivity.
Qed.

(** X14: the third rule of the reconciler. For a file with a header read
    without a column selection, the dtype dict is turned into a positional
    list exactly when it has no more entries than there are new names and
    each of the first [len(dtypes)] new names is a key of it: the list
    then holds the dtype of each of these names, in order. In every other
    case the dict reaches the native reader as it was given. *)
Theorem reconcile_dtypes_header (a : Csv.args) (L : list string)
  (p : string * DataType) (d : Dict.t DataType) :
  Csv.has_header a = true ->
  Py.truthy (Csv.columns a) = false ->
  Csv.new_columns a = Some L ->
  L <> [] ->
  Csv.dtypes a = Some (DtDict (p :: d)) ->
  let D := p :: d in
  let first := take (length D) L in
  ((length D <= length L)%nat ->
   (forall n, n ∈ first -> n ∈ Dict.keys D) ->
   exists l, reconcile_dtypes a = Ok (Some (DtList l))
             /\ length l = length D
             /\ forall i n, first !! i = Some n -> l !! i = Dict.get D n)
  /\ ((length L < length D)%nat \/ (exists n, n ∈ first /\ n ∉ Dict.keys D) ->
      reconcile_dtypes a = Ok (Some (DtDict D))).
Proof.
  intros Hh Hc HL Hne Hd D first.
  assert (Py.truthy (Csv.new_columns a) = true) as HtL
    by (rewrite HL; destruct L; [congruence | reflexivity]).
  assert (reconcile_dtypes a
          = if (length D <=? length L)%nat
            then if (length (omap (Dict.get D) first) =? length D)%nat
                 then Ok (Some (DtList (omap (Dict.get D) first)))
                 else Ok (Some (DtDict D))
            else Ok (Some (DtDict D))) as E.
  { unfold reconcile_dtypes. rewrite Hd, HtL, Hc, Hh, HL.
    cbn -[Dict.get omap take Nat.leb Nat.eqb length].
    fold D. fold first.
    destruct (length D <=? length L)%nat; [| reflexivity].
    destruct (length (omap (Dict.get D) first) =? length D)%nat; reflexivity. }
  split.
  - intros Hle Hall.
    assert (length first = length D) as Hfirst
      by (subst first; rewrite length_take; lia).
    assert (Forall (fun n => is_Some (Dict.get D n)) first) as Hsome.
    { apply Forall_forall. intros n Hn. apply get_is_Some, Hall, Hn. }
    pose proof (proj2 (omap_length_full (Dict.get D) first) Hsome) as Hlen.
    exists (omap (Dict.get D) first).
    rewrite E. apply Nat.leb_le in Hle. rewrite Hle.
    rewrite Hlen, Hfirst, Nat.eqb_refl.
    split; [reflexivity |]. split; [reflexivity |].
    clear E Hlen Hfirst Hall. revert Hsome. generalize first.
    intros l Hsome. induction Hsome as [|x l [t Hx] _ IH]; intros i n;
      [rewrite lookup_nil; discriminate |].
    cbn [omap list_omap]. change (omap (Dict.get D) (x :: l))
      with (match Dict.get D x with
            | Some y => y :: omap (Dict.get D) l
            | None => omap (Dict.get D) l
            end).
    rewrite Hx. destruct i as [|i]; cbn.
    + intros [= <-]. symmetry. exact Hx.
    + apply IH.
  - intros Hcase. rewrite E.
    destruct (Nat.leb_spec (length D) (length L)) as [Hle|Hlt];
      [| reflexivity].
    destruct Hcase as [Hlt | (n & Hn & Hnk)]; [lia |].
    assert (length first = length D) as Hfirst
      by (subst first; rewrite length_take; lia).
    destruct (Nat.eqb_spec (length (omap (Dict.get D) first)) (length D))
      as [Heq|]; [| reflexivity].
    exfalso. rewrite <- Hfirst in Heq.
    apply omap_length_full in Heq. rewrite Forall_forall in Heq.
    destruct (Heq n Hn) as [t Ht]. apply Hnk.
    apply mem_keys. unfold Dict.mem. rewrite Ht. reflexivity.
Qed.

End CsvReconcileRules.

Lemma reconcile_dtypes_headerless_witness :
  reconcile_dtypes
    (csv_call (FStr "a.csv") false None None
       (Some (DtDict [("b", "Int64")])) (Some ["a"; "b"]) false None false)
  = Ok (Some (DtDict [("column_2", "Int64")])).
Proof.
  exact (proj1 (reconcile_dtypes_headerless
    (csv_call (FStr "a.csv") false None None
       (Some (DtDict [("b", "Int64")])) (Some ["a"; "b"]) false None false)
    ["a"; "b"] ("b", "Int64") [] eq_refl eq_refl eq_refl
    ltac:(discriminate) eq_refl)).
Defined.

Lemma reconcile_dtypes_header_witness :
  (exists l,
     reconcile_dtypes
       (csv_call (FStr "a.csv") true None None
          (Some (DtDict [("a", "Int64")])) (Some ["a"; "b"]) false None false)
     = Ok (Some (DtList l))
     /\ length l = 1%nat
     /\ forall i n, ["a"] !! i = Some n -> l !! i = Dict.get [("a", "Int64")] n)
  /\ reconcile_dtypes
       (csv_call (FStr "a.csv") true None None
          (Some (DtDict [("b", "Int64")])) (Some ["a"; "b"]) false None false)
     = Ok (Some (DtDict [("b", "Int64")])).
Proof.
  split.
  - refine (proj1 (reconcile_dtypes_header
      (csv_call (FStr "a.csv") true None None
         (Some (DtDict [("a", "Int64")])) (Some ["a"; "b"]) false None false)
      ["a"; "b"] ("a", "Int64") [] eq_refl eq_refl eq_refl
      ltac:(discriminate) eq_refl) ltac:(cbn; lia) _).
    intros n Hn. exact Hn.
  - refine (proj2 (reconcile_dtypes_header
      (csv_call (FStr "a.csv") true None None
         (Some (DtDict [("b", "Int64")])) (Some ["a"; "b"]) false None false)
      ["a"; "b"] ("b", "Int64") [] eq_refl eq_refl eq_refl
      ltac:(discriminate) eq_refl) (or_intror _)).
    exists "a". split.
    + apply list_elem_of_In. cbn. auto.
    + intros H. apply list_elem_of_In in H. cbn in H.
      destruct H as [H | []]. discriminate.
Defined.

(** ** The re-keyed overrides are a dict *)

Section RekeyInvariant.

Context {V : Type}.
Implicit Types (d items : list (string * V)) (k : string).

Lemma keys_set d k v k' :
  k' ∈ Dict.keys (Dict.set d k v) <-> k' = k \/ k' ∈ Dict.keys d.
Proof.
  unfold Dict.keys. induction d as [|[k0 v0] d IH]; cbn.
  - rewrite list_elem_of_singleton. split; [auto | intros [H | H]; auto].
    inversion H.
  - destruct (String.eqb_spec k0 k) as [-> | Hne]; cbn.
    + rewrite !elem_of_cons. tauto.
    + rewrite !elem_of_cons, IH. tauto.
Qed.

Lemma NoDup_keys_set d k v :
  NoDup (Dict.keys d) -> NoDup (Dict.keys (Dict.set d k v)).
Proof.
  unfold Dict.keys. induction d as [|[k0 v0] d IH]; cbn; intros Hnd.
  - apply NoDup_singleton.
  - apply NoDup_cons in Hnd as [Hnin Hnd].
    destruct (String.eqb_spec k0 k) as [-> | Hne]; cbn.
    + apply NoDup_cons. auto.
    + apply NoDup_cons. split; [| auto].
      intros Hin. apply (keys_set d k v k0) in Hin as [-> | Hin]; auto.
Qed.

Lemma length_set d k v : (length (Dict.set d k v) <= S (length d))%nat.
Proof.
  induction d as [|[k0 v0] d IH]; cbn; [lia |].
  destruct (String.eqb k0 k); cbn; lia.
Qed.

Lemma fold_set_invariant items : forall d,
  NoDup (Dict.keys d) ->
  let d' := fold_left (fun d kv => Dict.set d (fst kv) (snd kv)) items d in
  NoDup (Dict.keys d')
  /\ (forall k, k ∈ Dict.keys d' <-> k ∈ map fst items \/ k ∈ Dict.keys d)
  /\ (length d' <= length items + length d)%nat.
Proof.
  induction items as [|[k0 v0] items IH]; intros d Hnd; cbn.
  - split; [exact Hnd |]. split; [| lia].
    intros k. split; [auto | intros [H | H]; [inversion H | exact H]].
  - destruct (IH (Dict.set d k0 v0) (NoDup_keys_set d k0 v0 Hnd))
      as (H1 & H2 & H3).
    split; [exact H1 |]. split.
    + intros k. rewrite H2, keys_set, elem_of_cons. tauto.
    + pose proof (length_set d k0 v0). lia.
Qed.

End RekeyInvariant.

(** X15: what the re-keying returns is again a dict: its keys are
    distinct, they are exactly the images [new_to_current.get(k, k)] of
    the keys it was given, and it has no more entries than it was given
    (two keys with the same image share one entry). *)
Theorem rekey_is_dict (m : Dict.t string) (d : Dict.t DataType) :
  NoDup (Dict.keys (rekey m d))
  /\ (forall k, k ∈ Dict.keys (rekey m d)
                <-> exists k0, k0 ∈ Dict.keys d /\ k = Dict.get_default m k0 k0)
  /\ (length (rekey m d) <= length d)%nat.
Proof.
  unfold rekey, Dict.of_items.
  destruct (fold_set_invariant
              (map (fun kv => (Dict.get_default m (fst kv) (fst kv), snd kv)) d)
              [] (NoDup_nil_2)) as (H1 & H2 & H3).
  split; [exact H1 |]. split.
  - intros k. rewrite H2, map_map. cbn. unfold Dict.keys. split.
    + intros [H | H]; [| inversion H].
      apply list_elem_of_fmap in H as ([k0 v0] & -> & Hin).
      exists k0. split; [| reflexivity].
      apply list_elem_of_fmap. exists (k0, v0). auto.
    + intros (k0 & Hin & ->). left.
      apply list_elem_of_fmap in Hin as ([k1 v1] & -> & Hin).
      apply list_elem_of_fmap. exists (k1, v1). auto.
  - rewrite length_map in H3. cbn in H3. rewrite Nat.add_0_r in H3. exact H3.
Qed.

(** ** [read_csv]: names with a suffix that is not canonical *)

Section CsvSuffix.

Variable env : Env.

(** X16: the two translations of [read_csv] are inverse up to the
    spelling of the number. A name whose suffix [int()] reads as [k]
    (so also [column_007], [column_+7] or a suffix in the digits of
    another script) goes to pyarrow as [f<k-1>] and
    comes back as [column_<k>], in canonical spelling; pyarrow's [f<j>]
    goes to [column_<j+1>] and back to [f<j>]; and a suffix [int()]
    rejects raises its [ValueError]. *)
Theorem pyarrow_name_normalised :
  (forall column k,
     Py.int (Py.str_drop 7 column) = Some k ->
     to_pyarrow_name column = Ok ("f" +:+ Py.str (k - 1))
     /\ rbind (to_pyarrow_name column) of_pyarrow_name
        = Ok ("column_" +:+ Py.str k))
  /\ (forall j, rbind (of_pyarrow_name ("f" +:+ Py.str j)) to_pyarrow_name
                = Ok ("f" +:+ Py.str j))
  /\ (forall column,
        Py.int (Py.str_drop 7 column) = None ->
        to_pyarrow_name column = Raise (ValueError_int (Py.str_drop 7 column))).
Proof.
  split; [| split].
  - intros column k Hk. unfold to_pyarrow_name at 1 2. rewrite Hk.
    split; [reflexivity |]. cbn [rbind].
    rewrite of_pyarrow_name_positional. do 3 f_equal. lia.
  - intros j. rewrite of_pyarrow_name_positional. cbn [rbind].
    rewrite to_pyarrow_name_synthetic. do 3 f_equal. lia.
  - intros column Hnone. unfold to_pyarrow_name. rewrite Hnone. reflexivity.
Qed.

Lemma comprehension_first_failure {A B} (f : A -> result B)
  (good : list A) (bad : A) (rest : list A) (e : exn) :
  (forall x, x ∈ good -> exists y, f x = Ok y) ->
  f bad = Raise e ->
  comprehension f (good ++ bad :: rest) = Raise e.
Proof.
  intros Hgood Hbad. induction good as [|x good IH]; cbn.
  - rewrite Hbad. reflexivity.
  - destruct (Hgood x ltac:(left)) as [y ->]. cbn.
    rewrite IH; [reflexivity |]. intros x' Hx'. apply Hgood. right. exact Hx'.
Qed.

(** X17: a header-less selection is only checked for its prefix, so a
    name like [column_x] passes the check. When the read then goes to
    pyarrow, the call fails with the [ValueError] of [int()] on the first
    suffix that is not an integer literal, before anything is resolved or
    read; the error is none of the three classes of this layer. *)
Theorem read_csv_pyarrow_suffix_not_integer (a : Csv.args) (w : world)
  (good : list string) (bad : string) (rest : list string) :
  Csv.has_header a = false ->
  pyarrow_eligible a = true ->
  _PYARROW_AVAILABLE env = true ->
  is_empty_bytes (Csv.file a) = false ->
  Csv.columns a = Some (good ++ bad :: rest) ->
  check_synthetic_names a = Ok tt ->
  (forall c, c ∈ good -> is_Some (Py.int (Py.str_drop 7 c))) ->
  Py.int (Py.str_drop 7 bad) = None ->
  read_csv env a w = (w, Raise (ValueError_int (Py.str_drop 7 bad)))
  /\ kind_of (ValueError_int (Py.str_drop 7 bad)) = None.
Proof.
  intros Hh Hel Hav Hb Hc Hcheck Hgood Hbad. split; [| reflexivity].
  rewrite read_csv_past_checks, Hel
    by (rewrite ?Hav; auto using andb_false_r).
  unfold read_csv_pyarrow, bind, lift, include_columns.
  rewrite Hh, Hc.
  assert (Py.truthy (Some (good ++ bad :: rest)) = true) as Ht
    by (destruct good; reflexivity).
  rewrite Ht. cbn [negb default from_option id].
  rewrite (comprehension_first_failure to_pyarrow_name good bad rest
             (ValueError_int (Py.str_drop 7 bad))).
  - reflexivity.
  - intros c Hin. destruct (Hgood c Hin) as [k Hk].
    unfold to_pyarrow_name. rewrite Hk. eauto.
  - unfold to_pyarrow_name. rewrite Hbad. reflexivity.
Qed.

(** X18: a projection names the same columns on both sides. For a read
    without a column selection and with the projection [P], pyarrow is
    asked for the columns [f<j>] for [j] in [P], whether or not the file
    has a header; for a header-less file these come back as
    [column_<j+1>], which are the names the reconciler uses for [P]. *)
Theorem include_columns_projection (a : Csv.args) (P : list Z) :
  Py.truthy (Csv.columns a) = false ->
  Csv.projection a = Some P ->
  P <> [] ->
  include_columns a = Ok (Some (map (fun j => "f" +:+ Py.str j) P))
  /\ comprehension of_pyarrow_name (map (fun j => "f" +:+ Py.str j) P)
     = Ok (map (fun column_idx => "column_" +:+ Py.str (column_idx + 1)) P).
Proof.
  intros Hc HP Hne. split.
  - unfold include_columns. rewrite Hc, HP. cbn.
    destruct P; [congruence | reflexivity].
  - apply comprehension_map, of_pyarrow_name_positional.
Qed.

End CsvSuffix.

Lemma pyarrow_name_normalised_witness :
  rbind (to_pyarrow_name "column_007") of_pyarrow_name = Ok "column_7"
  /\ to_pyarrow_name "column_٣" = Ok "f2"
  /\ to_pyarrow_name ("column_" +:+ String (ascii_of_nat 31) "5")
     = Raise (ValueError_int (String (ascii_of_nat 31) "5")).
Proof.
  split; [| split].
  - exact (proj2 (proj1 pyarrow_name_normalised "column_007" 7 eq_refl)).
  - exact (proj1 (proj1 pyarrow_name_normalised "column_٣" 3 eq_refl)).
  - exact (proj2 (proj2 pyarrow_name_normalised)
             ("column_" +:+ String (ascii_of_nat 31) "5") eq_refl).
Defined.

Lemma read_csv_pyarrow_suffix_not_integer_witness :
  read_csv sample_env
    (csv_call (FStr "a.csv") false None (Some ["column_1"; "column_x"])
       None None true None true)
    empty_world
  = (empty_world, Raise (ValueError_int "x")).
Proof.
  exact (proj1 (read_csv_pyarrow_suffix_not_integer sample_env
    (csv_call (FStr "a.csv") false None (Some ["column_1"; "column_x"])
       None None true None true)
    empty_world ["column_1"] "column_x" []
    eq_refl eq_refl eq_refl eq_refl eq_refl eq_refl
    (fun c Hc =>
       match proj1 (list_elem_of_singleton c "column_1") Hc in _ = y
             return is_Some (Py.int (Py.str_drop 7 y)) -> _
       with eq_refl => fun H => H end (ex_intro _ 1 eq_refl))
    eq_refl)).
Defined.

Lemma include_columns_projection_witness :
  include_columns
    (csv_call (FStr "a.csv") true (Some [0; 2]) None None None true None true)
  = Ok (Some ["f0"; "f2"]).
Proof.
  exact (proj1 (include_columns_projection
    (csv_call (FStr "a.csv") true (Some [0; 2]) None None None true None true)
    [0; 2] eq_refl eq_refl ltac:(discriminate))).
Defined.

(** ** [read_ipc] and [read_parquet]: options and their order *)

Section ColumnarOptions.

Variable env : Env.

Lemma with_file_ext {A} file kw (body1 body2 : source -> M A) w :
  (forall data w', body1 data w' = body2 data w') ->
  with_file env file kw body1 w = with_file env file kw body2 w.
Proof.
  intros H. unfold with_file, bind.
  destruct (_prepare_file_arg env file kw w) as [w1 [c|e]]; [| reflexivity].
  unfold with_. destruct (enter c w1) as [w2 [data|e]]; [| reflexivity].
  rewrite H. reflexivity.
Qed.

(** X19: unlike [read_csv], [read_ipc] and [read_parquet] look for
    pyarrow inside the [with] block. With [use_pyarrow=True], no row cap
    (or the cap [0]) and pyarrow not installed, the source is resolved
    first, which may fetch a URL or open a remote file, and only then the
    call fails with the [ImportError]; no reader is called and the block
    is left as usual. *)
Theorem read_columnar_pyarrow_missing (a : Columnar.args) w w1 c w2 data :
  _PYARROW_AVAILABLE env = false ->
  Columnar.use_pyarrow a = true ->
  Py.truthy_int (Columnar.n_rows a) = false ->
  _prepare_file_arg env (Columnar.file a)
    (default [] (Columnar.storage_options a)) w = (w1, Ok c) ->
  enter c w1 = (w2, Ok data) ->
  read_ipc env a w = (fst (exit c w2), Raise (ImportError_pyarrow "read_ipc"))
  /\ read_parquet env a w
     = (fst (exit c w2), Raise (ImportError_pyarrow "read_parquet"))
  /\ w_trace (fst (read_ipc env a w)) = w_trace w2
  /\ extends resolver_event w (fst (read_ipc env a w)).
Proof.
  intros Hav Hpa Hn Hprep Henter.
  assert (read_ipc env a w
          = (fst (exit c w2), Raise (ImportError_pyarrow "read_ipc"))) as E.
  { unfold read_ipc. rewrite Hpa, Hn. cbn [andb].
    unfold with_file, bind. rewrite Hprep.
    unfold with_. rewrite Henter, Hav. reflexivity. }
  split; [exact E |]. split; [| split].
  - unfold read_parquet. rewrite Hpa, Hn. cbn [andb].
    unfold with_file, bind. rewrite Hprep.
    unfold with_. rewrite Henter, Hav. reflexivity.
  - rewrite E. apply exit_trace.
  - pose proof (proj1 (sat_prepare_file_arg env resolver_event
                          (fun _ => True) (fun ev H => H) (fun _ _ => I)
                          (Columnar.file a)
                          (default [] (Columnar.storage_options a)) w)) as H1.
    rewrite Hprep in H1. cbn [fst] in H1.
    pose proof (proj1 (sat_enter resolver_event (fun _ => True) c I w1)) as H2.
    rewrite Henter in H2. cbn [fst] in H2.
    eapply extends_trans; [exact H1 |].
    eapply extends_trans; [exact H2 |].
    apply extends_same_trace. rewrite E. apply exit_trace.
Qed.

(** X20: in [read_ipc] and [read_parquet] a non-empty [columns] makes
    [projection] irrelevant: the call runs exactly as the call without a
    projection does, with either reader. *)
Theorem read_columnar_columns_over_projection (a : Columnar.args) (w : world) :
  truthy_selector (Columnar.columns a) = true ->
  read_ipc env a w = read_ipc env (with_projection None a) w
  /\ read_parquet env a w = read_parquet env (with_projection None a) w.
Proof.
  intros Hc.
  assert (forall data kw,
            pyarrow_columnar_args a data kw
            = pyarrow_columnar_args (with_projection None a) data kw) as Hpa.
  { intros data kw. unfold pyarrow_columnar_args, pyarrow_columns. cbn.
    rewrite Hc. reflexivity. }
  assert (forall data,
            native_columnar_args a data
            = native_columnar_args (with_projection None a) data) as Hna.
  { intros data. unfold native_columnar_args. cbn. rewrite Hc. reflexivity. }
  unfold read_ipc, read_parquet. cbn.
  split; (destruct (_ && _); [reflexivity |]; apply with_file_ext;
          intros data w'; rewrite ?Hpa, ?Hna; reflexivity).
Qed.

(** X21: the native readers of [read_ipc] and [read_parquet] are not
    given [memory_map], nor the extra keyword arguments of
    [read_parquet]: with [use_pyarrow=False] the call runs exactly as with
    any other value of them. *)
Theorem read_columnar_native_ignores_memory_map (a : Columnar.args)
  (memory_map : bool) (extra : kwargs) (w : world) :
  Columnar.use_pyarrow a = false ->
  read_ipc env a w = read_ipc env (with_memory_map memory_map extra a) w
  /\ read_parquet env a w
     = read_parquet env (with_memory_map memory_map extra a) w.
Proof.
  intros Hpa. unfold read_ipc, read_parquet. cbn. rewrite Hpa. cbn.
  split; apply with_file_ext; intros data w'; reflexivity.
Qed.

End ColumnarOptions.

Lemma read_columnar_pyarrow_missing_witness :
  read_ipc (sample_env_with false false)
    (columnar_args (FStr "http://h/a.bin") true None) empty_world
  = ({| w_heap := [mkStream "x,y" 0 true];
        w_trace := [Call_prepare_file_arg (FStr "http://h/a.bin") [];
                    Call_urlopen "http://h/a.bin"] |},
     Raise (ImportError_pyarrow "read_ipc")).
Proof.
  exact (proj1 (read_columnar_pyarrow_missing (sample_env_with false false)
    (columnar_args (FStr "http://h/a.bin") true None) empty_world
    {| w_heap := [mkStream "x,y" 0 false];
       w_trace := [Call_prepare_file_arg (FStr "http://h/a.bin") [];
                   Call_urlopen "http://h/a.bin"] |}
    (BytesIO_itself 0%nat)
    {| w_heap := [mkStream "x,y" 0 false];
       w_trace := [Call_prepare_file_arg (FStr "http://h/a.bin") [];
                   Call_urlopen "http://h/a.bin"] |}
    (Src (FBytesIO 0%nat))
    eq_refl eq_refl eq_refl eq_refl eq_refl)).
Defined.

Lemma read_columnar_columns_over_projection_witness :
  read_ipc sample_env
    (with_projection (Some [1])
       (Columnar.mk (FStr "a.bin") (Some (ColNames ["a"])) None None false
          true None []))
    empty_world
  = read_ipc sample_env
      (with_projection None
         (with_projection (Some [1])
            (Columnar.mk (FStr "a.bin") (Some (ColNames ["a"])) None None
               false true None [])))
      empty_world.
Proof.
  exact (proj1 (read_columnar_columns_over_projection sample_env
    (with_projection (Some [1])
       (Columnar.mk (FStr "a.bin") (Some (ColNames ["a"])) None None false
          true None []))
    empty_world eq_refl)).
Defined.

Lemma read_columnar_native_ignores_memory_map_witness :
  read_parquet sample_env (columnar_args (FStr "a.bin") false None) empty_world
  = read_parquet sample_env
      (with_memory_map false [("use_threads", "False")]
         (columnar_args (FStr "a.bin") false None))
      empty_world.
Proof.
  exact (proj2 (read_columnar_native_ignores_memory_map sample_env
    (columnar_args (FStr "a.bin") false None) false
    [("use_threads", "False")] empty_world eq_refl)).
Defined.

(** ** Release of the source, by kind of descriptor *)

Section SourceRelease.

Variable env : Env.

(** X22: for an open stream, a [bytes] object, a [Path], a local path
    and a list of local paths, the [with] block around the read is the
    body run on the descriptor: the resolver fetches nothing, and leaving
    the block changes neither the heap nor the trace, whether the body
    returned or raised. *)
Theorem with_file_release_no_op {A} (file file' : file_arg) (kw : kwargs)
  (body : source -> M A) (w : world) :
  passed_through env file file' ->
  with_file env file kw body w
  = body (Src file')
      {| w_heap := w_heap w;
         w_trace := w_trace w ++ [Call_prepare_file_arg file kw] |}.
Proof. apply with_file_passed_through. Qed.

(** X23: an open [BytesIO] of the caller is used as its own context
    manager: the body runs on the buffer itself, and when the block is
    left the buffer is closed, whether the body returned or raised. *)
Theorem with_file_closes_BytesIO {A} (h : handle) (s : stream) (kw : kwargs)
  (body : source -> M A) (w : world) :
  w_heap w !! h = Some s ->
  s_closed s = false ->
  let run :=
    body (Src (FBytesIO h))
      {| w_heap := w_heap w;
         w_trace := w_trace w ++ [Call_prepare_file_arg (FBytesIO h) kw] |} in
  with_file env (FBytesIO h) kw body w = (fst (close h (fst run)), snd run)
  /\ forall s', w_heap (fst (with_file env (FBytesIO h) kw body w)) !! h
                = Some s' -> s_closed s' = true.
Proof.
  intros Hs Hopen run.
  assert (with_file env (FBytesIO h) kw body w
          = (fst (close h (fst run)), snd run)) as E.
  { rewrite (with_file_BytesIO env h s kw body w Hs Hopen). subst run.
    destruct (body _ _) as [w2 r]. reflexivity. }
  split; [exact E |]. rewrite E. intros s'. apply close_closes.
Qed.

End SourceRelease.

Lemma with_file_release_no_op_witness :
  with_file sample_env (FPath "a.csv") [] (fun data => ret data) buffer_world
  = ({| w_heap := w_heap buffer_world;
        w_trace := [Call_prepare_file_arg (FPath "a.csv") []] |},
     Ok (Src (FStr "a.csv"))).
Proof.
  exact (with_file_release_no_op sample_env (FPath "a.csv") (FStr "a.csv") []
           (fun data => ret data) buffer_world
           (pass_path sample_env "a.csv")).
Defined.

Lemma with_file_closes_BytesIO_witness :
  with_file sample_env (FBytesIO 0%nat) []
    (fun _ => raise (External "reader")) buffer_world
  = ({| w_heap := [mkStream "a,b,c" 0 true];
        w_trace := [Call_prepare_file_arg (FBytesIO 0%nat) []] |},
     @Raise unit (External "reader")).
Proof.
  exact (proj1 (with_file_closes_BytesIO sample_env 0%nat
    (mkStream "a,b,c" 0 false) [] (fun _ => raise (External "reader"))
    buffer_world eq_refl eq_refl)).
Defined.

(** ** Which failures come before any input or output *)

Section FailureOrder.

Variable env : Env.

Lemma resolver_exn_unclassified (e : exn) : resolver_exn e -> unclassified e.
Proof. destruct e; intros H; try destruct H; reflexivity. Qed.

(** X24: with [use_pyarrow=True] a row cap other than [0] makes
    [read_ipc] and [read_parquet] fail with the [InvalidOptionCombination]
    error before anything is resolved or read; with [use_pyarrow=False]
    the row cap, [0] included, is handed to the native reader. *)
Theorem read_columnar_row_cap (a : Columnar.args) (w : world) :
  (forall n, Columnar.use_pyarrow a = true -> Columnar.n_rows a = Some n ->
             n <> 0 ->
             read_ipc env a w = (w, Raise ValueError_n_rows_with_pyarrow)
             /\ read_parquet env a w = (w, Raise ValueError_n_rows_with_pyarrow)
             /\ kind_of ValueError_n_rows_with_pyarrow
                = Some InvalidOptionCombination)
  /\ (forall w1 c w2 data,
        Columnar.use_pyarrow a = false ->
        _prepare_file_arg env (Columnar.file a)
          (default [] (Columnar.storage_options a)) w = (w1, Ok c) ->
        enter c w1 = (w2, Ok data) ->
        Columnar.nat_n_rows (native_columnar_args a data) = Columnar.n_rows a
        /\ w_trace (fst (read_ipc env a w))
           = w_trace w2
             ++ [Call_DataFrame_read_ipc (native_columnar_args a data)]
        /\ w_trace (fst (read_parquet env a w))
           = w_trace w2
             ++ [Call_DataFrame_read_parquet (native_columnar_args a data)]).
Proof.
  split.
  - intros n Hpa Hn Hnz.
    destruct (read_columnar_row_cap_refused env a w n Hpa Hn Hnz) as [E1 E2].
    auto.
  - intros w1 c w2 data Hpa Hprep Henter.
    exact (read_columnar_row_cap_forwarded env a w w1 c w2 data Hpa Hprep
             Henter).
Qed.

Lemma sat_read_csv_after_checks (a : Csv.args) kw :
  (forall ic,
     sat (fun _ => True) unclassified
       (tbl <- with_file env (Csv.file a) kw (fun data =>
                 let pa := pyarrow_csv_args a data ic in
                 call (Call_pa_csv_read_csv pa) (pa_csv_read_csv env pa)) ;;
        tbl <- (if negb (Csv.has_header a) then
                  names <- lift (comprehension of_pyarrow_name
                                   (column_names tbl)) ;;
                  lift (rename_columns tbl names)
                else ret tbl) ;;
        lift (renamed env a (from_arrow env tbl (Csv.rechunk a)))))
  /\ (forall dt,
        sat (fun _ => True) unclassified
          (df <- with_file env (Csv.file a) kw (fun data =>
                   let na := native_csv_args a data dt in
                   call (Call_DataFrame_read_csv na)
                     (DataFrame_read_csv env na)) ;;
           lift (renamed env a df))).
Proof.
  split.
  - intros ic. apply sat_bind; [| intros tbl; apply sat_bind;
                                   [| intros; apply sat_renamed; reflexivity]].
    + apply sat_with_file; auto using resolver_exn_unclassified.
      intros data. apply sat_call; [exact I | reflexivity].
    + destruct (negb (Csv.has_header a)); [| apply sat_ret].
      apply sat_bind; [| intros names].
      * apply sat_lift. intros e He. revert He.
        apply (comprehension_raises of_pyarrow_name unclassified).
        intros x e' Hx. unfold of_pyarrow_name in Hx.
        destruct (Py.int _); inversion Hx. reflexivity.
      * apply sat_lift. unfold rename_columns.
        destruct (_ =? _)%nat; intros e [= <-]. reflexivity.
  - intros dt. apply sat_bind; [| intros; apply sat_renamed; reflexivity].
    apply sat_with_file; auto using resolver_exn_unclassified.
    intros data. apply sat_call; [exact I | reflexivity].
Qed.

(** X25: every failure of [read_csv] that belongs to one of the three
    error classes of this layer (invalid input, invalid option
    combination, missing optional dependency) is raised before anything
    is resolved or read: the call ends in the world it started in. *)
Theorem read_csv_classified_failure_before_io (a : Csv.args) (w : world)
  (e : exn) (k : error_kind) :
  snd (read_csv env a w) = Raise e ->
  kind_of e = Some k ->
  fst (read_csv env a w) = w.
Proof.
  destruct (sat_read_csv_after_checks a (default [] (Csv.storage_options a)))
    as [Hpa Hna].
  unfold read_csv.
  destruct (is_empty_bytes _); [reflexivity |].
  unfold bind at 1, lift at 1.
  destruct (check_synthetic_names a) as [[]|e0]; [| reflexivity].
  destruct (_ && _); [reflexivity |].
  destruct (pyarrow_eligible a).
  - unfold read_csv_pyarrow. unfold bind at 1, lift at 1.
    destruct (include_columns a) as [ic|e0]; [| reflexivity].
    intros Hr Hk. pose proof (proj2 (Hpa ic w) e Hr) as Hnone.
    unfold unclassified in Hnone. congruence.
  - unfold read_csv_native. unfold bind at 1, lift at 1.
    destruct (reconcile_dtypes a) as [dt|e0]; [| reflexivity].
    intros Hr Hk. pose proof (proj2 (Hna dt w) e Hr) as Hnone.
    unfold unclassified in Hnone. congruence.
Qed.

(** X26: [read_ipc] and [read_parquet] have two failures of their own:
    the refusal of a row cap with pyarrow, raised before anything is
    resolved, and the [ImportError] for a pyarrow that is asked for and
    not installed. Every other exception is one of the resolver or of a
    reader. *)
Theorem read_columnar_failures (a : Columnar.args) (w : world) (e : exn)
  (k : error_kind) :
  (snd (read_ipc env a w) = Raise e ->
   kind_of e = Some k ->
   (e = ValueError_n_rows_with_pyarrow /\ fst (read_ipc env a w) = w)
   \/ (e = ImportError_pyarrow "read_ipc"
       /\ _PYARROW_AVAILABLE env = false /\ Columnar.use_pyarrow a = true))
  /\ (snd (read_parquet env a w) = Raise e ->
      kind_of e = Some k ->
      (e = ValueError_n_rows_with_pyarrow /\ fst (read_parquet env a w) = w)
      \/ (e = ImportError_pyarrow "read_parquet"
          /\ _PYARROW_AVAILABLE env = false /\ Columnar.use_pyarrow a = true)).
Proof.
  split.
  - unfold read_ipc. destruct (_ && _); [intros [= <-] _; left; auto |].
    intros Hr Hk. right.
    assert (sat (fun _ => True)
              (fun e => unclassified e
                        \/ (e = ImportError_pyarrow "read_ipc"
                            /\ _PYARROW_AVAILABLE env = false
                            /\ Columnar.use_pyarrow a = true))
              (with_file env (Columnar.file a)
                 (default [] (Columnar.storage_options a))
                 (fun data =>
                    if Columnar.use_pyarrow a then
                      if negb (_PYARROW_AVAILABLE env)
                      then raise (ImportError_pyarrow "read_ipc")
                      else
                        let pa := pyarrow_columnar_args a data [] in
                        tbl <- call (Call_pa_feather_read_table pa)
                                 (pa_feather_read_table env pa) ;;
                        ret (DataFrame_from_arrow env tbl)
                    else
                      let na := native_columnar_args a data in
                      call (Call_DataFrame_read_ipc na)
                        (DataFrame_read_ipc env na)))) as Hsat.
    { apply sat_with_file; auto.
      - intros e' He'. left. apply resolver_exn_unclassified, He'.
      - intros data. destruct (Columnar.use_pyarrow a).
        + destruct (_PYARROW_AVAILABLE env); cbn [negb].
          * apply sat_bind; [| intros; apply sat_ret].
            apply sat_call; [exact I | intros; left; reflexivity].
          * apply sat_raise. right. auto.
        + apply sat_call; [exact I | intros; left; reflexivity]. }
    destruct (proj2 (Hsat w) e Hr) as [Hnone | H]; [| exact H].
    unfold unclassified in Hnone. congruence.
  - unfold read_parquet. destruct (_ && _); [intros [= <-] _; left; auto |].
    intros Hr Hk. right.
    assert (sat (fun _ => True)
              (fun e => unclassified e
                        \/ (e = ImportError_pyarrow "read_parquet"
                            /\ _PYARROW_AVAILABLE env = false
                            /\ Columnar.use_pyarrow a = true))
              (with_file env (Columnar.file a)
                 (default [] (Columnar.storage_options a))
                 (fun source_prep =>
                    if Columnar.use_pyarrow a then
                      if negb (_PYARROW_AVAILABLE env)
                      then raise (ImportError_pyarrow "read_parquet")
                      else
                        let pa := pyarrow_columnar_args a source_prep
                                    (Columnar.extra a) in
                        tbl <- call (Call_pa_parquet_read_table pa)
                                 (pa_parquet_read_table env pa) ;;
                        ret (from_arrow env tbl true)
                    else
                      let na := native_columnar_args a source_prep in
                      call (Call_DataFrame_read_parquet na)
                        (DataFrame_read_parquet env na)))) as Hsat.
    { apply sat_with_file; auto.
      - intros e' He'. left. apply resolver_exn_unclassified, He'.
      - intros data. destruct (Columnar.use_pyarrow a).
        + destruct (_PYARROW_AVAILABLE env); cbn [negb].
          * apply sat_bind; [| intros; apply sat_ret].
            apply sat_call; [exact I | intros; left; reflexivity].
          * apply sat_raise. right. auto.
        + apply sat_call; [exact I | intros; left; reflexivity]. }
    destruct (proj2 (Hsat w) e Hr) as [Hnone | H]; [| exact H].
    unfold unclassified in Hnone. congruence.
Qed.

End FailureOrder.

Lemma read_csv_classified_failure_before_io_witness :
  fst (read_csv (sample_env_with false false)
         (csv_call (FStr "https://host/a.csv") true None None None None true
            None true)
         empty_world)
  = empty_world.
Proof.
  exact (read_csv_classified_failure_before_io (sample_env_with false false)
    (csv_call (FStr "https://host/a.csv") true None None None None true
       None true)
    empty_world (ImportError_pyarrow "read_csv") MissingOptionalDependency
    eq_refl eq_refl).
Defined.

Lemma read_columnar_row_cap_witness :
  read_ipc sample_env (columnar_args (FStr "a.ipc") true (Some 5)) empty_world
  = (empty_world, Raise ValueError_n_rows_with_pyarrow)
  /\ read_parquet sample_env (columnar_args (FStr "a.ipc") true (Some 5))
       empty_world
     = (empty_world, Raise ValueError_n_rows_with_pyarrow)
  /\ kind_of ValueError_n_rows_with_pyarrow = Some InvalidOptionCombination.
Proof.
  refine (proj1 (read_columnar_row_cap sample_env
            (columnar_args (FStr "a.ipc") true (Some 5)) empty_world)
            5 eq_refl eq_refl _).
  discriminate.
Defined.

Lemma read_columnar_failures_witness :
  (ImportError_pyarrow "read_ipc" = ValueError_n_rows_with_pyarrow
   /\ fst (read_ipc (sample_env_with false false)
             (columnar_args (FStr "a.ipc") true None) empty_world)
      = empty_world)
  \/ (ImportError_pyarrow "read_ipc" = ImportError_pyarrow "read_ipc"
      /\ _PYARROW_AVAILABLE (sample_env_with false false) = false
      /\ Columnar.use_pyarrow (columnar_args (FStr "a.ipc") true None) = true).
Proof.
  exact (proj1 (read_columnar_failures (sample_env_with false false)
    (columnar_args (FStr "a.ipc") true None) empty_world
    (ImportError_pyarrow "read_ipc") MissingOptionalDependency)
    eq_refl eq_refl).
Defined.
